(** * Subscription keys: the API server and the admin console

    A shallow embedding of the two Express/Mongoose programs of the
    repository:

    - [Admin] follows the admin console (the session-authenticated program
      with the [Key] model): the index page, key creation from the form,
      delete, toggle and the hourly timer that removes expired keys;
    - [Api] follows [server.js] (the [Subscription] model): the API key
      check, validation ([GET /users/user/connect/:key]), create, update,
      delete, list, the on-demand cleanup and the hourly timer.

    Conventions of the embedding.
    - A [Date] is its time value, an integer number of milliseconds ([Z]);
      [new Date()] is the argument [now] of a handler, read once per request.
    - A collection is the list of its documents in natural (insertion) order;
      [findOne] returns the first match with its position, and
      [document.save()] writes the document back at that position.
    - Handlers are modelled past their authentication middleware
      ([verifyApiKey], [requireAuth]) and with a store that answers: the
      [catch] branches are taken only for the errors Mongoose raises itself
      (cast and validation errors, the duplicate-key error 11000, a [null]
      document). Each handler runs to its end before the next one starts.
    - Request bodies carry JSON scalars; a number is an integer or a
      fraction of integers. The login of the console, with its sessions
      and password hashes, is left out. *)

From Stdlib Require Import ZArith.
From stdpp Require Import base tactics option list strings pretty sorting.

(** ** JavaScript values and dates *)

(** The JSON scalars a request body can carry, and [undefined] for a field
    that is not there. *)
Inductive jsval : Type :=
  | JUndefined
  | JNull
  | JBool (b : bool)
  | JNum (n : Z)
  | JFrac (num : Z) (den : positive)
  | JStr (s : string).

(** [ToBoolean]: what [!v] and [v && ...] test. *)
Definition truthy (v : jsval) : bool :=
  match v with
  | JUndefined | JNull => false
  | JBool b => b
  | JNum n => negb (n =? 0)%Z
  | JFrac n _ => negb (n =? 0)%Z
  | JStr s => negb (String.eqb s "")
  end.

(** A value of the type Number: [NaN], an infinity, or the fraction
    [num / den]. *)
Inductive number : Type :=
  | NaN
  | Infinity (negative : bool)
  | Finite (num : Z) (den : positive).

(** [x > 0]. *)
Definition is_positive (x : number) : bool :=
  match x with
  | NaN => false
  | Infinity negative => negb negative
  | Finite n _ => (0 <? n)%Z
  end.

(** [ToIntegerOrInfinity] of a finite number: truncation towards zero. *)
Definition truncate (num : Z) (den : positive) : Z := Z.quot num (Z.pos den).

Definition msPerDay : Z := 86400000.

(** A time value is a valid [Date] up to 8.64e15 ms on either side of the
    epoch; beyond it the [Date] is invalid ([NaN]). *)
Definition maxTime : Z := 8640000000000000.

Definition TimeClip (t : Z) : option Z :=
  if decide (Z.abs t ≤ maxTime)%Z then Some t else None.

(** [Day(t)] and [DateFromTime(t)]: the number of the day a time value
    falls in, and its day of the month, 1 to 31, in the Gregorian
    calendar. *)
Definition Day (t : Z) : Z := (t `div` msPerDay)%Z.

Definition DateFromTime (t : Z) : Z :=
  (let z := Day t + 719468 in
   let doe := z `mod` 146097 in
   let yoe := (doe - doe `div` 1460 + doe `div` 36524 - doe `div` 146096) `div` 365 in
   let doy := doe - (365 * yoe + yoe `div` 4 - yoe `div` 100) in
   let mp := (5 * doy + 2) `div` 153 in
   doy - (153 * mp + 2) `div` 5 + 1)%Z.

(** [expiresAt: { $lt: now }]: a query comparison with a date matches dates
    only, never [null]. *)
Definition date_lt (expiresAt : option Z) (now : Z) : Prop :=
  match expiresAt with
  | Some e => (e < now)%Z
  | None => False
  end.

#[global] Instance date_lt_dec expiresAt now : Decision (date_lt expiresAt now).
Proof. destruct expiresAt; simpl; apply _. Defined.

(** ** Mongoose documents *)

(** A value assigned to a path is cast to the path's schema type. The cast
    of the installed Mongoose is taken as given: for each schema type, the
    value the cast yields ([Some None] is [null]) or [None] for a
    [CastError], which makes [save()] reject. [acceptsOther] tells whether
    [save()] still goes through after an assignment to a name that passes
    the test [field in schema.paths] without being a declared path:
    Mongoose's own [_id] and [__v], and the names every object inherits.
    None of them is a field of the records here.

    Two things of the JavaScript runtime under Mongoose are taken as given
    with it: [LocalTZA t isUTC], the offset of local time from UTC at the
    time value [t] (a UTC one, or a local one when [isUTC] is [false]),
    which holds the time zone and its clock changes; and [StringToNumber],
    the number a string reads as. *)
Record Mongoose : Type := mkMongoose {
  castString : jsval → option (option string);
  castNumber : jsval → option (option Z);
  castBoolean : jsval → option (option bool);
  castDate : jsval → option (option Z);
  acceptsOther : string → jsval → bool;
  LocalTZA : Z → bool → Z;
  StringToNumber : string → number
}.

(** [LocalTime(t)] and [UTC(t)]. *)
Definition LocalTime (M : Mongoose) (t : Z) : Z := (t + LocalTZA M t true)%Z.
Definition UTC (M : Mongoose) (t : Z) : Z := (t - LocalTZA M t false)%Z.

(** [d.getDate()] of a date with the time value [t]. *)
Definition getDate (M : Mongoose) (t : Z) : Z := DateFromTime (LocalTime M t).

(** [ToNumber]. *)
Definition ToNumber (M : Mongoose) (v : jsval) : number :=
  match v with
  | JUndefined => NaN
  | JNull => Finite 0 1
  | JBool b => Finite (if b then 1 else 0) 1
  | JNum n => Finite n 1
  | JFrac n d => Finite n d
  | JStr s => StringToNumber M s
  end.

(** [ToNumber(g + v)] for a number [g] that is an integer: with a string
    [+] concatenates, and the digits of [g] followed by the string are read
    as a number; with any other value it adds. *)
Definition plus (M : Mongoose) (g : Z) (v : jsval) : number :=
  match v with
  | JStr s => StringToNumber M (pretty g +:+ s)
  | _ =>
      match ToNumber M v with
      | Finite n d => Finite (g * Z.pos d + n)%Z d
      | x => x
      end
  end.

(** [d.setDate(dt)] on a date with the time value [t]: the day [dt] of the
    month of [t], counted on from the month's first day, at the local time
    of day of [t]; [None] is an invalid date. *)
Definition setDate (M : Mongoose) (t : Z) (dt : number) : option Z :=
  match dt with
  | Finite n d =>
      let local := LocalTime M t in
      TimeClip (UTC M (local + (truncate n d - DateFromTime local) * msPerDay)%Z)
  | _ => None
  end.

(** The digits of an unsigned decimal integer. *)
Fixpoint read_digits (s : string) (acc : Z) : option Z :=
  match s with
  | EmptyString => Some acc
  | String c rest =>
      let n := Z.of_nat (Ascii.nat_of_ascii c) in
      if decide (48 ≤ n ≤ 57)%Z then read_digits rest (10 * acc + (n - 48))%Z
      else None
  end.

(** [null] and [undefined] are stored as they are, whatever the type. *)
Definition cast {T} (c : jsval → option (option T)) (v : jsval) :
    option (option T) :=
  match v with
  | JUndefined | JNull => Some None
  | _ => c v
  end.

(** [required: true]: fails on [null]; on a [String] path also on the
    empty string. *)
Definition required {T} (r : option (option T)) : option T :=
  match r with
  | Some (Some x) => Some x
  | _ => None
  end.

Definition required_string (r : option (option string)) : option string :=
  match r with
  | Some (Some x) => if String.eqb x "" then None else Some x
  | _ => None
  end.

(** The cast that takes a value of the path's own type to itself and
    fails on every other value; a number given for a [Date] path is its
    time value. With it, a runtime whose local time is UTC and that reads
    a run of decimal digits as the integer it writes, the empty string as
    0, and is not asked about other strings here ([NaN]). *)
Definition typed : Mongoose :=
  mkMongoose
    (λ v, match v with JStr s => Some (Some s) | _ => None end)
    (λ v, match v with JNum n => Some (Some n) | _ => None end)
    (λ v, match v with JBool b => Some (Some b) | _ => None end)
    (λ v, match v with JNum t => Some <$> TimeClip t | _ => None end)
    (λ _ _, false)
    (λ _ _, 0%Z)
    (λ s, match read_digits s 0 with Some n => Finite n 1 | None => NaN end).

(** [typed] in a time zone whose clocks go from UTC to one hour ahead of
    it at the time value [change]; a local time that the change skips is
    read with the offset before it. *)
Definition clocks_forward (change : Z) : Mongoose :=
  mkMongoose
    (castString typed) (castNumber typed) (castBoolean typed) (castDate typed)
    (acceptsOther typed)
    (λ t isUTC,
       if isUTC then (if decide (t < change)%Z then 0 else 3600000)%Z
       else (if decide (t < change + 3600000)%Z then 0 else 3600000)%Z)
    (StringToNumber typed).

(** ** The admin console *)

Module Admin.

(** [keySchema]. *)
Record Key : Type := mkKey {
  _id : nat;
  key : string;
  userId : option string;
  subscriptionType : string;
  createdAt : Z;
  expiresAt : option Z;
  isActive : bool;
  isPermanent : bool
}.

Definition set_isActive (b : bool) (k : Key) : Key :=
  mkKey (_id k) (key k) (userId k) (subscriptionType k) (createdAt k)
        (expiresAt k) b (isPermanent k).

Inductive response : Type :=
  | Redirect (url : string)
  | Json (status : nat) (success : bool) (message : string)
         (isActive : option bool).

(** The body of [POST /keys]. [expiresAt] holds the time value of
    [new Date(req.body.expiresAt)], [None] when that date is invalid. *)
Record KeyForm : Type := mkKeyForm {
  form_subscriptionType : jsval;
  form_expiresAt : option Z;
  form_isPermanent : jsval
}.

Definition is_on (v : jsval) : bool :=
  match v with
  | JStr s => String.eqb s "on"
  | _ => false
  end.

(** [Key.findById]. *)
Definition findById (id : nat) (keys : list Key) : option (nat * Key) :=
  list_find (λ k, _id k = id) keys.

(** [POST /keys]. [uuid] is the result of [uuidv4()] and [oid] the
    identifier Mongoose gives the new document. [save()] rejects a document
    with an invalid date or without a subscription type, and the unique
    index rejects a key that is already there; either way the handler
    redirects with the error message. *)
Definition post_keys (M : Mongoose) (uuid : string) (oid : nat) (now : Z)
    (body : KeyForm) (keys : list Key) : response * list Key :=
  let expiresAt :=
    if truthy (form_isPermanent body) then Some None
    else Some <$> form_expiresAt body in
  match expiresAt,
        required_string (cast (castString M) (form_subscriptionType body)) with
  | Some e, Some ty =>
      if decide (uuid ∈ key <$> keys) then
        (Redirect "/?message=Ошибка создания ключа", keys)
      else
        (Redirect "/?message=Ключ успешно создан",
         keys ++ [mkKey oid uuid None ty now e true (is_on (form_isPermanent body))])
  | _, _ => (Redirect "/?message=Ошибка создания ключа", keys)
  end.

(** [DELETE /keys/:id]. [id] is [req.params.id] cast to an identifier,
    [None] when it is not the text of one: then [findByIdAndDelete] rejects
    with a [CastError] and the handler answers 500. With an identifier it
    answers success whether or not a document was there. *)
Definition delete_key (id : option nat) (keys : list Key) : response * list Key :=
  match id with
  | None => (Json 500 false "Ошибка удаления ключа" None, keys)
  | Some id =>
      match findById id keys with
      | Some (i, _) => (Json 200 true "Ключ удален" None, delete i keys)
      | None => (Json 200 true "Ключ удален" None, keys)
      end
  end.

(** [POST /keys/:id/toggle]. Without a document [key.isActive] throws and
    the handler answers 500. *)
Definition toggle (id : nat) (keys : list Key) : response * list Key :=
  match findById id keys with
  | Some (i, k) =>
      let k' := set_isActive (negb (isActive k)) k in
      (Json 200 true
         ("Ключ " +:+ (if isActive k' then "активирован" else "деактивирован"))
         (Some (isActive k')),
       <[i := k']> keys)
  | None => (Json 500 false "Ошибка изменения статуса" None, keys)
  end.

(** The filter of the hourly timer:
    [{ isPermanent: false, expiresAt: { $lt: new Date() } }]. *)
Definition sweep_filter (now : Z) (k : Key) : Prop :=
  isPermanent k = false ∧ date_lt (expiresAt k) now.

#[global] Instance sweep_filter_dec now k : Decision (sweep_filter now k).
Proof. unfold sweep_filter. apply _. Defined.

(** The hourly timer: [Key.deleteMany] of the documents the filter
    matches; the first component is [deletedCount]. *)
Definition sweep (now : Z) (keys : list Key) : nat * list Key :=
  (length (filter (sweep_filter now) keys),
   filter (λ k, ¬ sweep_filter now k) keys).

(** [GET /]: the page of keys the console shows. *)

(** [.sort({ createdAt: -1 })]: [k1] may come before [k2]. *)
Definition newest_first (k1 k2 : Key) : Prop := (createdAt k2 ≤ createdAt k1)%Z.

#[global] Instance newest_first_dec k1 k2 : Decision (newest_first k1 k2).
Proof. unfold newest_first. apply _. Defined.

Definition limit : nat := 10.

(** What the handler hands to the template: the keys of the page,
    [currentPage] and [totalPages], or the error page with no keys. *)
Inductive index_view : Type :=
  | Index (keys : list Key) (currentPage : Z) (totalPages : nat)
  | IndexError.

(** [parseInt(req.query.page) || 1], with [None] for [NaN]. *)
Definition page_of (parsed : option Z) : Z :=
  match parsed with
  | Some n => if (n =? 0)%Z then 1%Z else n
  | None => 1%Z
  end.

(** [Math.ceil(totalKeys / limit)]. *)
Definition total_pages (totalKeys : nat) : nat := (totalKeys + (limit - 1)) `div` limit.

(** The handler. MongoDB rejects a negative [skip], which leads to the
    [catch] branch. *)
Definition get_index (parsed : option Z) (keys : list Key) : index_view :=
  let page := page_of parsed in
  let skip := ((page - 1) * Z.of_nat limit)%Z in
  if (skip <? 0)%Z then IndexError
  else
    Index (take limit (drop (Z.to_nat skip) (merge_sort newest_first keys)))
          page (total_pages (length keys)).

(** The steps of the console that change keys already there: a tick of the
    hourly timer and a toggle. *)
Inductive step : Type :=
  | Sweep (now : Z)
  | Toggle (id : nat).

Definition run_step (keys : list Key) (e : step) : list Key :=
  match e with
  | Sweep now => (sweep now keys).2
  | Toggle id => (toggle id keys).2
  end.

Definition run (steps : list step) (keys : list Key) : list Key :=
  foldl run_step keys steps.

End Admin.

(** ** The API server *)

Module Api.

(** [subscriptionSchema]. [key], [userId] and [subscriptionType] are
    required, so a stored document always has them; every other path can
    hold [null] ([None]). *)
Record Subscription : Type := mkSubscription {
  key : string;
  userId : Z;
  username : option string;
  firstName : option string;
  lastName : option string;
  subscriptionType : string;
  createdAt : option Z;
  expiresAt : option Z;
  isActive : option bool;
  isFrozen : option bool;
  frozenDays : option Z;
  lastChecked : option Z
}.

Definition set_key v d :=
  mkSubscription v (userId d) (username d) (firstName d) (lastName d)
    (subscriptionType d) (createdAt d) (expiresAt d) (isActive d)
    (isFrozen d) (frozenDays d) (lastChecked d).
Definition set_userId v d :=
  mkSubscription (key d) v (username d) (firstName d) (lastName d)
    (subscriptionType d) (createdAt d) (expiresAt d) (isActive d)
    (isFrozen d) (frozenDays d) (lastChecked d).
Definition set_username v d :=
  mkSubscription (key d) (userId d) v (firstName d) (lastName d)
    (subscriptionType d) (createdAt d) (expiresAt d) (isActive d)
    (isFrozen d) (frozenDays d) (lastChecked d).
Definition set_firstName v d :=
  mkSubscription (key d) (userId d) (username d) v (lastName d)
    (subscriptionType d) (createdAt d) (expiresAt d) (isActive d)
    (isFrozen d) (frozenDays d) (lastChecked d).
Definition set_lastName v d :=
  mkSubscription (key d) (userId d) (username d) (firstName d) v
    (subscriptionType d) (createdAt d) (expiresAt d) (isActive d)
    (isFrozen d) (frozenDays d) (lastChecked d).
Definition set_subscriptionType v d :=
  mkSubscription (key d) (userId d) (username d) (firstName d) (lastName d)
    v (createdAt d) (expiresAt d) (isActive d)
    (isFrozen d) (frozenDays d) (lastChecked d).
Definition set_createdAt v d :=
  mkSubscription (key d) (userId d) (username d) (firstName d) (lastName d)
    (subscriptionType d) v (expiresAt d) (isActive d)
    (isFrozen d) (frozenDays d) (lastChecked d).
Definition set_expiresAt v d :=
  mkSubscription (key d) (userId d) (username d) (firstName d) (lastName d)
    (subscriptionType d) (createdAt d) v (isActive d)
    (isFrozen d) (frozenDays d) (lastChecked d).
Definition set_isActive v d :=
  mkSubscription (key d) (userId d) (username d) (firstName d) (lastName d)
    (subscriptionType d) (createdAt d) (expiresAt d) v
    (isFrozen d) (frozenDays d) (lastChecked d).
Definition set_isFrozen v d :=
  mkSubscription (key d) (userId d) (username d) (firstName d) (lastName d)
    (subscriptionType d) (createdAt d) (expiresAt d) (isActive d)
    v (frozenDays d) (lastChecked d).
Definition set_frozenDays v d :=
  mkSubscription (key d) (userId d) (username d) (firstName d) (lastName d)
    (subscriptionType d) (createdAt d) (expiresAt d) (isActive d)
    (isFrozen d) v (lastChecked d).
Definition set_lastChecked v d :=
  mkSubscription (key d) (userId d) (username d) (firstName d) (lastName d)
    (subscriptionType d) (createdAt d) (expiresAt d) (isActive d)
    (isFrozen d) (frozenDays d) v.

#[global] Instance Subscription_eq_dec : EqDecision Subscription.
Proof. solve_decision. Defined.

(** *** The store and its write log *)

(** What reaches the collection: the write of a loaded document by
    [save()], the insert of a new one, a bulk update, a delete. *)
Inductive write : Type :=
  | Saved (i : nat) (d : Subscription)
  | Inserted (d : Subscription)
  | UpdatedMany (modifiedCount : nat)
  | Deleted (i : nat).

(** A handler runs on the collection and yields its result, the collection
    it leaves and the writes it made, in order. *)
Definition DB (A : Type) : Type :=
  list Subscription → A * list Subscription * list write.

#[global] Instance DB_ret : MRet DB := λ A a s, (a, s, []).
#[global] Instance DB_bind : MBind DB := λ A B f m s,
  let '(a, s1, w1) := m s in
  let '(b, s2, w2) := f a s1 in
  (b, s2, w1 ++ w2).

Definition result {A} (r : A * list Subscription * list write) : A := r.1.1.
Definition store_of {A} (r : A * list Subscription * list write) : list Subscription := r.1.2.
Definition writes {A} (r : A * list Subscription * list write) : list write := r.2.

(** The errors [save()] rejects with. Only [DuplicateKey] has
    [error.code === 11000]. *)
Inductive error : Type :=
  | ValidationError
  | DuplicateKey.

Definition findOne (P : Subscription → Prop) `{∀ d, Decision (P d)} :
    DB (option (nat * Subscription)) :=
  λ s, (list_find P s, s, []).

(** [save()] of a document loaded from position [i] whose [key] is as
    loaded. Mongoose sends an update only for paths whose value is not the
    one loaded: the [save()] of a document that is as stored writes
    nothing. *)
Definition save (i : nat) (d : Subscription) : DB unit :=
  λ s, if decide (s !! i = Some d) then (tt, s, [])
       else (tt, <[i := d]> s, [Saved i d]).

(** [save()] of a loaded document whose [key] may have been assigned: the
    unique index on [key] rejects a value another document holds; as the
    index holds of the collection, no other document has the key of a
    document that is as stored. *)
Definition save_checked (i : nat) (d : Subscription) : DB (option error) :=
  λ s, if decide (key d ∈ key <$> delete i s) then (Some DuplicateKey, s, [])
       else if decide (s !! i = Some d) then (None, s, [])
       else (None, <[i := d]> s, [Saved i d]).

(** [save()] of a new document. *)
Definition insertOne (d : Subscription) : DB (option error) :=
  λ s, if decide (key d ∈ key <$> s)
       then (Some DuplicateKey, s, [])
       else (None, s ++ [d], [Inserted d]).

(** [updateMany(filter, update)]; the result is [modifiedCount]. *)
Definition updateMany (P : Subscription → Prop) `{∀ d, Decision (P d)}
    (f : Subscription → Subscription) : DB nat :=
  λ s, let n := length (filter P s) in
       (n, (λ d, if decide (P d) then f d else d) <$> s, [UpdatedMany n]).

Definition findOneAndDelete (P : Subscription → Prop) `{∀ d, Decision (P d)} :
    DB (option Subscription) :=
  λ s, match list_find P s with
       | Some (i, d) => (Some d, delete i s, [Deleted i])
       | None => (None, s, [])
       end.

(** *** Responses *)

Inductive body : Type :=
  | Message (success : bool) (message : string)
  | MessageData (success : bool) (message : string) (data : Subscription)
  | Data (success : bool) (data : Subscription).

Record response : Type := mkResponse { status : nat; json : body }.

Definition internal_error : response :=
  mkResponse 500 (Message false "Internal server error").

(** *** Validation: [GET /users/user/connect/:key] *)

(** [subscription.expiresAt && subscription.expiresAt < new Date()]: a
    [Date] object is truthy whatever its time value, [null] is not. *)
Definition expired (d : Subscription) (now : Z) : bool :=
  match expiresAt d with
  | Some e => (e <? now)%Z
  | None => false
  end.

Definition connect (k : string) (now : Z) : DB response :=
  subscription ← findOne (λ d, key d = k ∧ isActive d = Some true);
  match subscription with
  | None =>
      mret (mkResponse 404 (Message false "Subscription key not found or expired"))
  | Some (i, d) =>
      if expired d now then
        save i (set_isActive (Some false) d);;
        mret (mkResponse 410 (Message false "Subscription key has expired"))
      else
        let d' := set_lastChecked (Some now) d in
        save i d';;
        mret (mkResponse 200 (Data true d'))
  end.

(** *** Expiration in bulk *)

(** [{ expiresAt: { $lt: new Date() }, isActive: true }]. *)
Definition cleanup_filter (now : Z) (d : Subscription) : Prop :=
  date_lt (expiresAt d) now ∧ isActive d = Some true.

#[global] Instance cleanup_filter_dec now d : Decision (cleanup_filter now d).
Proof. unfold cleanup_filter. apply _. Defined.

(** [POST /subscriptions/cleanup]. *)
Definition post_cleanup (now : Z) : DB response :=
  modifiedCount ← updateMany (cleanup_filter now) (set_isActive (Some false));
  mret (mkResponse 200
          (Message true ("Deactivated " +:+ pretty modifiedCount +:+ " expired subscriptions"))).

(** The hourly timer; it only logs. *)
Definition sweep_tick (now : Z) : DB unit :=
  _ ← updateMany (cleanup_filter now) (set_isActive (Some false));
  mret tt.

(** *** Create: [POST /subscriptions] *)

(** The fields read from [req.body]. *)
Record CreateBody : Type := mkCreateBody {
  req_userId : jsval;
  req_username : jsval;
  req_firstName : jsval;
  req_lastName : jsval;
  req_subscriptionType : jsval;
  req_key : jsval;
  req_durationDays : jsval
}.

(** The [expiresAt] the handler computes: [Some None] for [null],
    [None] for an invalid [Date]. *)
Definition expiry_of (M : Mongoose) (durationDays : jsval) (now : Z) :
    option (option Z) :=
  if truthy durationDays && is_positive (ToNumber M durationDays) then
    Some <$> setDate M now (plus M (getDate M now) durationDays)
  else Some None.

(** [new Subscription({...})] followed by the validation [save()] runs
    before it inserts: [None] when a cast fails or a required path is
    empty. The paths not given take their defaults. *)
Definition new_Subscription (M : Mongoose) (b : CreateBody)
    (expires : option (option Z)) (now : Z) : option Subscription :=
  k ← required_string (cast (castString M) (req_key b));
  u ← required (cast (castNumber M) (req_userId b));
  un ← cast (castString M) (req_username b);
  fn ← cast (castString M) (req_firstName b);
  ln ← cast (castString M) (req_lastName b);
  ty ← required_string (cast (castString M) (req_subscriptionType b));
  e ← expires;
  Some (mkSubscription k u un fn ln ty (Some now) e (Some true)
          (Some false) (Some 0%Z) (Some now)).

Definition post_subscriptions (M : Mongoose) (b : CreateBody) (now : Z) :
    DB response :=
  if negb (truthy (req_userId b)) || negb (truthy (req_subscriptionType b))
     || negb (truthy (req_key b)) then
    mret (mkResponse 400
            (Message false "Missing required fields: userId, subscriptionType, key"))
  else
    let expiresAt := expiry_of M (req_durationDays b) now in
    match new_Subscription M b expiresAt now with
    | None => mret internal_error
    | Some subscription =>
        e ← insertOne subscription;
        match e with
        | Some DuplicateKey =>
            mret (mkResponse 409 (Message false "Subscription key already exists"))
        | Some ValidationError => mret internal_error
        | None =>
            mret (mkResponse 201
                    (MessageData true "Subscription key created successfully" subscription))
        end
    end.

(** *** Update: [PUT /subscriptions/:key] *)

(** The own properties of [subscription.schema.paths]: the declared paths
    and Mongoose's [_id] and [__v]. *)
Definition schema_paths : list string :=
  ["key"; "userId"; "username"; "firstName"; "lastName"; "subscriptionType";
   "createdAt"; "expiresAt"; "isActive"; "isFrozen"; "frozenDays";
   "lastChecked"; "_id"; "__v"].

(** [schema.paths] is a plain object, and [in] also sees what it inherits
    from [Object.prototype]. *)
Definition Object_prototype : list string :=
  ["constructor"; "__defineGetter__"; "__defineSetter__"; "hasOwnProperty";
   "__lookupGetter__"; "__lookupSetter__"; "isPrototypeOf";
   "propertyIsEnumerable"; "toString"; "valueOf"; "__proto__";
   "toLocaleString"].

(** [subscription[field] = v] for a name that is [in schema.paths], with
    the validation [save()] will run on it: [None] when [save()] rejects. *)
Definition assign (M : Mongoose) (field : string) (v : jsval)
    (d : Subscription) : option Subscription :=
  if String.eqb field "key" then
    x ← required_string (cast (castString M) v); Some (set_key x d)
  else if String.eqb field "userId" then
    x ← required (cast (castNumber M) v); Some (set_userId x d)
  else if String.eqb field "username" then
    x ← cast (castString M) v; Some (set_username x d)
  else if String.eqb field "firstName" then
    x ← cast (castString M) v; Some (set_firstName x d)
  else if String.eqb field "lastName" then
    x ← cast (castString M) v; Some (set_lastName x d)
  else if String.eqb field "subscriptionType" then
    x ← required_string (cast (castString M) v); Some (set_subscriptionType x d)
  else if String.eqb field "createdAt" then
    x ← cast (castDate M) v; Some (set_createdAt x d)
  else if String.eqb field "expiresAt" then
    x ← cast (castDate M) v; Some (set_expiresAt x d)
  else if String.eqb field "isActive" then
    x ← cast (castBoolean M) v; Some (set_isActive x d)
  else if String.eqb field "isFrozen" then
    x ← cast (castBoolean M) v; Some (set_isFrozen x d)
  else if String.eqb field "frozenDays" then
    x ← cast (castNumber M) v; Some (set_frozenDays x d)
  else if String.eqb field "lastChecked" then
    x ← cast (castDate M) v; Some (set_lastChecked x d)
  else if acceptsOther M field v then Some d
  else None.

(** The loop over [Object.keys(updates)]. *)
Fixpoint apply_updates (M : Mongoose) (updates : list (string * jsval))
    (d : Subscription) : option Subscription :=
  match updates with
  | [] => Some d
  | (field, v) :: rest =>
      if decide (field ∈ schema_paths ++ Object_prototype) then
        d' ← assign M field v d; apply_updates M rest d'
      else apply_updates M rest d
  end.

Definition put_subscription (M : Mongoose) (k : string)
    (updates : list (string * jsval)) : DB response :=
  subscription ← findOne (λ d, key d = k);
  match subscription with
  | None => mret (mkResponse 404 (Message false "Subscription key not found"))
  | Some (i, d) =>
      match apply_updates M updates d with
      | None => mret internal_error
      | Some d' =>
          e ← save_checked i d';
          match e with
          | Some _ => mret internal_error
          | None =>
              mret (mkResponse 200
                      (MessageData true "Subscription updated successfully" d'))
          end
      end
  end.

(** *** Delete: [DELETE /subscriptions/:key] *)

Definition delete_subscription (k : string) : DB response :=
  r ← findOneAndDelete (λ d, key d = k);
  match r with
  | None => mret (mkResponse 404 (Message false "Subscription key not found"))
  | Some _ =>
      mret (mkResponse 200 (Message true "Subscription key deleted successfully"))
  end.

(** *** Runs *)

(** The steps that expire on their own: a tick of the hourly timer and a
    validation of a key. *)
Inductive expiration_step : Type :=
  | SweepTick (now : Z)
  | Validation (k : string) (now : Z).

Definition expire (s : list Subscription) (e : expiration_step) :
    list Subscription :=
  match e with
  | SweepTick now => store_of (sweep_tick now s)
  | Validation k now => store_of (connect k now s)
  end.

Definition expire_all (steps : list expiration_step) (s : list Subscription) :
    list Subscription :=
  foldl expire s steps.

(** The fields an expiration step never writes: all but [isActive] and
    [lastChecked]. *)
Definition same_record (d d' : Subscription) : Prop :=
  set_lastChecked None (set_isActive None d') =
  set_lastChecked None (set_isActive None d).

(** A document stays where it is, and if its [isActive] changes, it
    changes to [false] on a document that has an [expiresAt]. *)
Definition deactivated_or_kept (d d' : Subscription) : Prop :=
  same_record d d' ∧
  (isActive d' = isActive d ∨
   (isActive d = Some true ∧ isActive d' = Some false ∧ is_Some (expiresAt d))).

(** [key.isActive = !key.isActive], the statement of the admin console's
    toggle, on a document of this collection; [!null] is [true]. The server
    itself reaches the same document with an update of [isActive]. *)
Definition toggled (d : Subscription) : Subscription :=
  set_isActive (Some (negb (default false (isActive d)))) d.

(** Every request that reaches the collection. *)
Inductive request : Type :=
  | Connect (k : string)
  | Create (b : CreateBody)
  | Update (k : string) (updates : list (string * jsval))
  | Delete (k : string)
  | Cleanup
  | Tick.

Definition handle (M : Mongoose) (r : request) (now : Z)
    (s : list Subscription) : list Subscription :=
  match r with
  | Connect k => store_of (connect k now s)
  | Create b => store_of (post_subscriptions M b now s)
  | Update k updates => store_of (put_subscription M k updates s)
  | Delete k => store_of (delete_subscription k s)
  | Cleanup => store_of (post_cleanup now s)
  | Tick => store_of (sweep_tick now s)
  end.

(** The collections the server can be in, starting from the empty one. *)
Inductive reachable (M : Mongoose) : list Subscription → Prop :=
  | reachable_empty : reachable M []
  | reachable_handle s r now :
      reachable M s → reachable M (handle M r now s).

(** The unique index on [key]. *)
Definition unique_keys (s : list Subscription) : Prop := NoDup (key <$> s).

(** *** The API key: [verifyApiKey] *)

(** [a || b] on values that are a string or [undefined]: the empty string
    is falsy. *)
Definition or_else (a b : option string) : option string :=
  match a with
  | Some x => if String.eqb x "" then b else Some x
  | None => b
  end.

(** [process.env.API_KEY || 'onyxhub-secret-key-2024']. *)
Definition STATIC_API_KEY (env_API_KEY : option string) : string :=
  match or_else env_API_KEY (Some "onyxhub-secret-key-2024") with
  | Some k => k
  | None => "onyxhub-secret-key-2024"
  end.

Definition unauthorized : response :=
  mkResponse 401 (Message false "Invalid API key").

(** The middleware in front of every route of the collection. [header] is
    [req.headers['x-api-key']], [query] is [req.query.apiKey], [next] the
    handler of the route. *)
Definition verifyApiKey (env_API_KEY header query : option string)
    (next : DB response) : DB response :=
  let apiKey := or_else header query in
  match apiKey with
  | None => mret unauthorized
  | Some a =>
      if String.eqb a "" || negb (String.eqb a (STATIC_API_KEY env_API_KEY))
      then mret unauthorized
      else next
  end.

(** *** List: [GET /subscriptions] *)

(** [req.query]: each parameter is a string or is not there. *)
Record ListQuery : Type := mkListQuery {
  query_userId : option string;
  query_isActive : option string;
  query_subscriptionType : option string
}.

(** The [filter] object the handler builds; a field that is not set is
    [None]. *)
Record Filter : Type := mkFilter {
  filter_userId : option Z;
  filter_isActive : option bool;
  filter_subscriptionType : option string
}.

(** The handler's three [if]s. [parseInt] is the built-in, with [None] for
    [NaN]; a [NaN] in the filter is a [CastError] of the query, hence no
    filter. *)
Definition build_filter (parseInt : string → option Z) (q : ListQuery) :
    option Filter :=
  let isActive :=
    match query_isActive q with
    | Some v => Some (String.eqb v "true")
    | None => None
    end in
  let subscriptionType := or_else (query_subscriptionType q) None in
  match or_else (query_userId q) None with
  | Some v =>
      match parseInt v with
      | Some n => Some (mkFilter (Some n) isActive subscriptionType)
      | None => None
      end
  | None => Some (mkFilter None isActive subscriptionType)
  end.

(** A document matches a filter when it has the value of every field that
    is set. *)
Definition matches (f : Filter) (d : Subscription) : Prop :=
  from_option (λ n, userId d = n) True (filter_userId f) ∧
  from_option (λ a, isActive d = Some a) True (filter_isActive f) ∧
  from_option (λ t, subscriptionType d = t) True (filter_subscriptionType f).

#[global] Instance matches_dec f d : Decision (matches f d).
Proof.
  unfold matches.
  destruct (filter_userId f), (filter_isActive f), (filter_subscriptionType f);
    simpl; apply _.
Defined.

(** The order of two dates in a sort: [null] comes before every date. *)
Definition date_le (a b : option Z) : Prop :=
  match a, b with
  | None, _ => True
  | Some _, None => False
  | Some x, Some y => (x ≤ y)%Z
  end.

#[global] Instance date_le_dec a b : Decision (date_le a b).
Proof. destruct a, b; simpl; apply _. Defined.

(** [.sort({ createdAt: -1 })]: [d1] may come before [d2]. *)
Definition newest_first (d1 d2 : Subscription) : Prop :=
  date_le (createdAt d2) (createdAt d1).

#[global] Instance newest_first_dec d1 d2 : Decision (newest_first d1 d2).
Proof. unfold newest_first. apply _. Defined.

(** [find(filter).sort(order)]. MongoDB does not fix the order of documents
    the sort key does not tell apart; here it is the one of a merge sort. *)
Definition find_sorted (P : Subscription → Prop) `{∀ d, Decision (P d)}
    (R : relation Subscription) `{∀ x y, Decision (R x y)} :
    DB (list Subscription) :=
  λ s, (merge_sort R (filter P s), s, []).

Inductive list_response : Type :=
  | Listing (success : bool) (count : nat) (data : list Subscription)
  | ListFailed (r : response).

Definition get_subscriptions (parseInt : string → option Z) (q : ListQuery) :
    DB list_response :=
  match build_filter parseInt q with
  | None => mret (ListFailed internal_error)
  | Some filter =>
      subscriptions ← find_sorted (matches filter) newest_first;
      mret (Listing true (length subscriptions) subscriptions)
  end.

End Api.

(** ** The lifecycle rule in the words of the specification *)

Module Spec.
Import Api.

(** [isExpired(record, now)]: true iff [expiresAt] is present and
    [now > expiresAt]. *)
Definition isExpired (record : Subscription) (now : Z) : bool :=
  match expiresAt record with
  | Some e => bool_decide (now > e)%Z
  | None => false
  end.

(** [evaluate(record, now)]: if [isExpired(record, now)] and
    [record.isActive], the record with [isActive = false]; otherwise the
    record unchanged. *)
Definition evaluate (record : Subscription) (now : Z) : Subscription :=
  if isExpired record now && bool_decide (isActive record = Some true)
  then set_isActive (Some false) record
  else record.

End Spec.

(** * Properties of the API server *)

Module ApiFacts.
Import Api.

(** ** The handlers, case by case *)

Lemma touch_id d now : set_lastChecked (Some now) d = d ↔ lastChecked d = Some now.
Proof.
  split.
  - intros <-. done.
  - intros H. destruct d. simpl in *. by subst.
Qed.

Lemma connect_unfold k now s :
  connect k now s =
  match list_find (λ d, key d = k ∧ isActive d = Some true) s with
  | None =>
      (mkResponse 404 (Message false "Subscription key not found or expired"), s, [])
  | Some (i, d) =>
      if expired d now then
        (mkResponse 410 (Message false "Subscription key has expired"),
         <[i := set_isActive (Some false) d]> s,
         [Saved i (set_isActive (Some false) d)])
      else
        (mkResponse 200 (Data true (set_lastChecked (Some now) d)),
         <[i := set_lastChecked (Some now) d]> s,
         if decide (lastChecked d = Some now) then []
         else [Saved i (set_lastChecked (Some now) d)])
  end.
Proof.
  unfold connect, mbind, DB_bind, findOne.
  destruct (list_find _ s) as [[i d]|] eqn:Hfind; [|reflexivity].
  apply list_find_Some in Hfind as (Hi & [_ Ha] & _).
  destruct (expired d now); unfold save.
  - rewrite decide_False; [reflexivity|].
    rewrite Hi. intros [= Hd]. rewrite Hd in Ha. done.
  - case_decide as Hsame.
    + rewrite Hi in Hsame. injection Hsame as Hsame. symmetry in Hsame.
      rewrite decide_True by (by apply touch_id).
      simpl. rewrite list_insert_id; [done|]. by rewrite Hsame.
    + rewrite decide_False; [reflexivity|].
      intros Hl. apply Hsame. rewrite Hi. f_equal. symmetry. by apply touch_id.
Qed.

Lemma sweep_tick_store now s :
  store_of (sweep_tick now s) =
  (λ d, if decide (cleanup_filter now d) then set_isActive (Some false) d else d) <$> s.
Proof. reflexivity. Qed.

Lemma post_cleanup_store now s :
  store_of (post_cleanup now s) = store_of (sweep_tick now s).
Proof. reflexivity. Qed.

Lemma expired_date_lt d now : expired d now = true ↔ date_lt (expiresAt d) now.
Proof.
  unfold expired, date_lt. destruct (expiresAt d); [|naive_solver].
  apply Z.ltb_lt.
Qed.

(** With a unique index, a lookup by key finds the document that holds
    the key, wherever it is. *)
Lemma find_by_key (Q : Subscription → Prop) `{∀ d, Decision (Q d)} s i d :
  unique_keys s → s !! i = Some d →
  list_find (λ x, key x = key d ∧ Q x) s =
  if decide (Q d) then Some (i, d) else None.
Proof.
  intros Hu Hi. case_decide as HQ.
  - apply list_find_Some. split_and!; [done..|].
    intros j y Hj Hlt [Hk _].
    assert (j = i); [|lia].
    apply (NoDup_lookup (key <$> s) j i (key d)); [done|..];
      rewrite list_lookup_fmap; [rewrite Hj|rewrite Hi]; simpl; congruence.
  - apply list_find_None, Forall_lookup. intros j y Hj [Hk Hy].
    assert (j = i) as ->.
    { apply (NoDup_lookup (key <$> s) j i (key d)); [done|..];
        rewrite list_lookup_fmap; [rewrite Hj|rewrite Hi]; simpl; congruence. }
    congruence.
Qed.

Lemma evaluate_filter d now :
  Spec.evaluate d now =
  if decide (cleanup_filter now d) then set_isActive (Some false) d else d.
Proof.
  unfold Spec.evaluate, Spec.isExpired.
  case_decide as Hf; unfold cleanup_filter, date_lt in Hf;
    destruct (expiresAt d) as [e|]; simpl.
  - destruct Hf as [Hlt ->]. rewrite bool_decide_true by lia. done.
  - by destruct Hf.
  - case_bool_decide; [|done]. case_bool_decide; [|done].
    exfalso. apply Hf. split; [lia|done].
  - done.
Qed.

(** ** Lazy and eager expiration take the same decision *)

(** C3. For a document [d] of a collection with unique keys and a time
    [now]: a validation of [d]'s key and a sweep tick leave the document
    with the same [isActive], the one the specification's [evaluate] gives;
    the sweep, timed or on demand, leaves exactly [evaluate d now]; and
    either of them
    deactivates [d] if and only if [d] matches the sweep filter
    ([expiresAt < now] and [isActive == true]), which is the test the
    validation makes on the document it found. *)
Theorem lazy_agrees_with_sweep s i d now :
  unique_keys s → s !! i = Some d →
  ∃ d1 d2,
    store_of (connect (key d) now s) !! i = Some d1 ∧
    store_of (sweep_tick now s) !! i = Some d2 ∧
    store_of (post_cleanup now s) !! i = Some d2 ∧
    isActive d1 = isActive d2 ∧
    d2 = Spec.evaluate d now ∧
    (isActive d = Some true ∧ isActive d1 = Some false ↔ cleanup_filter now d) ∧
    (isActive d = Some true ∧ isActive d2 = Some false ↔ cleanup_filter now d) ∧
    expired d now && bool_decide (isActive d = Some true)
      = bool_decide (cleanup_filter now d).
Proof.
  intros Hu Hi.
  assert (Hlt : i < length s) by (by eapply lookup_lt_Some).
  rewrite post_cleanup_store.
  rewrite connect_unfold, sweep_tick_store, list_lookup_fmap, Hi.
  rewrite (find_by_key (λ x, isActive x = Some true) s i d Hu Hi). simpl.
  pose proof (expired_date_lt d now) as He.
  rewrite evaluate_filter.
  case_decide as Ha.
  - destruct (expired d now) eqn:Hex; unfold store_of; simpl;
      rewrite list_lookup_insert_eq by done;
      eexists _, _; (split; [reflexivity|]); (split; [reflexivity|]);
      (split; [reflexivity|]).
    + assert (Hf : cleanup_filter now d) by (split; [by apply He|done]).
      rewrite decide_True, (bool_decide_true _ Hf), ?bool_decide_true by done.
      simpl. tauto.
    + assert (Hf : ¬ cleanup_filter now d).
      { intros [Hx _]. apply He in Hx. done. }
      rewrite decide_False, (bool_decide_false _ Hf) by done.
      simpl. rewrite Ha. split_and!; try done; split; try done; intros [_ ?]; done.
  - unfold store_of; simpl. rewrite Hi.
    eexists _, _; (split; [reflexivity|]); (split; [reflexivity|]);
      (split; [reflexivity|]).
    assert (Hf : ¬ cleanup_filter now d) by (by intros [_ ?]).
    rewrite decide_False, (bool_decide_false _ Hf), bool_decide_false by done.
    rewrite andb_false_r. split_and!; try done; split; try done; intros [? _]; done.
Qed.

(** [lazy_agrees_with_sweep] at a stored key that has run out. *)
Lemma lazy_agrees_with_sweep_witness :
  let d := mkSubscription "K1" 7 None None None "pro" (Some 0%Z) (Some 100%Z)
             (Some true) (Some false) (Some 0%Z) (Some 0%Z) in
  ∃ d1 d2,
    store_of (connect (key d) 200 [d]) !! 0 = Some d1 ∧
    store_of (sweep_tick 200 [d]) !! 0 = Some d2 ∧
    store_of (post_cleanup 200 [d]) !! 0 = Some d2 ∧
    isActive d1 = isActive d2 ∧
    d2 = Spec.evaluate d 200 ∧
    (isActive d = Some true ∧ isActive d1 = Some false ↔ cleanup_filter 200 d) ∧
    (isActive d = Some true ∧ isActive d2 = Some false ↔ cleanup_filter 200 d) ∧
    expired d 200 && bool_decide (isActive d = Some true)
      = bool_decide (cleanup_filter 200 d).
Proof.
  intros d. apply (lazy_agrees_with_sweep [d] 0 d 200).
  - unfold unique_keys. simpl. apply NoDup_singleton.
  - reflexivity.
Defined.

(** ** Validation *)

(** C4. When the lookup [findOne({ key, isActive: true })] of a validation
    finds a document whose [expiresAt] is present and earlier than [now],
    the call answers 410, its one write stores the document with
    [isActive = false] at the document's place, and, the keys of the
    collection being unique, every document with that key is inactive
    afterwards and every later validation of the key answers 404. *)
Theorem connect_expired_persists k now s i d e :
  list_find (λ x, key x = k ∧ isActive x = Some true) s = Some (i, d) →
  expiresAt d = Some e → (e < now)%Z →
  status (result (connect k now s)) = 410 ∧
  writes (connect k now s) = [Saved i (set_isActive (Some false) d)] ∧
  store_of (connect k now s) !! i = Some (set_isActive (Some false) d) ∧
  (unique_keys s →
   (∀ j x, store_of (connect k now s) !! j = Some x → key x = k →
           isActive x = Some false) ∧
   (∀ later, status (result (connect k later (store_of (connect k now s)))) = 404)).
Proof.
  intros Hfind He Hlt.
  assert (Hex : expired d now = true).
  { unfold expired. rewrite He. by apply Z.ltb_lt. }
  apply list_find_Some in Hfind as Hfind'. destruct Hfind' as (Hi & [Hk Ha] & _).
  assert (Hlen : i < length s) by (by eapply lookup_lt_Some).
  rewrite !connect_unfold, Hfind, Hex. unfold result, store_of, writes. simpl.
  split_and!; [done|done|by apply list_lookup_insert_eq|].
  intros Hu.
  assert (Hall : ∀ j x, <[i:=set_isActive (Some false) d]> s !! j = Some x →
                        key x = k → isActive x = Some false).
  { intros j x Hj Hx. destruct (decide (j = i)) as [->|Hne].
    - rewrite list_lookup_insert_eq in Hj by done. by inversion Hj.
    - rewrite list_lookup_insert_ne in Hj by done.
      exfalso. apply Hne.
      apply (NoDup_lookup (key <$> s) j i k); [done|..];
        rewrite list_lookup_fmap; [rewrite Hj|rewrite Hi]; simpl; congruence. }
  split; [done|]. intros later.
  rewrite connect_unfold.
  replace (list_find _ (<[i:=set_isActive (Some false) d]> s)) with
    (@None (nat * Subscription)); [done|].
  symmetry. apply list_find_None, Forall_lookup. intros j x Hj [Hx Hact].
  specialize (Hall j x Hj Hx). congruence.
Qed.

(** [connect_expired_persists] for key ["K1"], expired at 100 and
    validated at 200. *)
Lemma connect_expired_persists_witness :
  let d := mkSubscription "K1" 7 None None None "pro" (Some 0%Z) (Some 100%Z)
             (Some true) (Some false) (Some 0%Z) (Some 0%Z) in
  status (result (connect "K1" 200 [d])) = 410 ∧
  writes (connect "K1" 200 [d]) = [Saved 0 (set_isActive (Some false) d)] ∧
  store_of (connect "K1" 200 [d]) !! 0 = Some (set_isActive (Some false) d) ∧
  (unique_keys [d] →
   (∀ j x, store_of (connect "K1" 200 [d]) !! j = Some x → key x = "K1" →
           isActive x = Some false) ∧
   (∀ later, status (result (connect "K1" later (store_of (connect "K1" 200 [d])))) = 404)).
Proof.
  intros d. apply (connect_expired_persists "K1" 200 [d] 0 d 100).
  - reflexivity.
  - reflexivity.
  - lia.
Defined.




(** A validation that answers anything else writes nothing. *)
Lemma connect_not_found_no_write k now s :
  status (result (connect k now s)) = 404 →
  writes (connect k now s) = [] ∧ store_of (connect k now s) = s.
Proof.
  rewrite connect_unfold.
  destruct (list_find _ s) as [[i d]|]; [|done].
  destruct (expired d now); done.
Qed.

(** ** What an expiration step does to a document *)

Lemma same_record_refl d : same_record d d.
Proof. reflexivity. Qed.

Lemma same_record_trans d1 d2 d3 :
  same_record d1 d2 → same_record d2 d3 → same_record d1 d3.
Proof. unfold same_record. congruence. Qed.

Lemma same_record_fields d d' :
  same_record d d' → key d' = key d ∧ expiresAt d' = expiresAt d.
Proof. unfold same_record. intros H. by inversion H. Qed.

Lemma connect_lookup k now s i d :
  s !! i = Some d →
  ∃ d', store_of (connect k now s) !! i = Some d' ∧ deactivated_or_kept d d'.
Proof.
  intros Hi. rewrite connect_unfold.
  destruct (list_find _ s) as [[j x]|] eqn:Hfind.
  - apply list_find_Some in Hfind as (Hj & [_ Ha] & _).
    assert (Hlen : j < length s) by (by eapply lookup_lt_Some).
    destruct (decide (j = i)) as [->|Hne].
    + assert (x = d) as -> by congruence.
      destruct (expired d now) eqn:Hex; unfold store_of; simpl;
        rewrite list_lookup_insert_eq by done; eexists; (split; [done|]);
        (split; [done|]); simpl.
      * right. split_and!; [done..|].
        unfold expired in Hex. by destruct (expiresAt d).
      * by left.
    + exists d. destruct (expired x now); unfold store_of; simpl;
        rewrite list_lookup_insert_ne by done; (split; [done|]);
        (split; [done|by left]).
  - exists d. unfold store_of; simpl. split; [done|]. split; [done|by left].
Qed.

Lemma sweep_tick_lookup now s i d :
  s !! i = Some d →
  ∃ d', store_of (sweep_tick now s) !! i = Some d' ∧ deactivated_or_kept d d'.
Proof.
  intros Hi. rewrite sweep_tick_store, list_lookup_fmap, Hi. simpl.
  eexists; split; [done|]. case_decide as Hf.
  - split; [done|]. right. destruct Hf as [Hlt Ha]. split_and!; [done..|].
    unfold date_lt in Hlt. by destruct (expiresAt d).
  - split; [done|by left].
Qed.

Lemma expire_lookup e s i d :
  s !! i = Some d →
  ∃ d', expire s e !! i = Some d' ∧ deactivated_or_kept d d'.
Proof.
  destruct e as [now|k now]; simpl;
    [apply sweep_tick_lookup|apply connect_lookup].
Qed.

Lemma expire_all_lookup steps s i d :
  s !! i = Some d →
  ∃ d', expire_all steps s !! i = Some d' ∧ same_record d d' ∧
        (isActive d' = isActive d ∨
         (isActive d' = Some false ∧ is_Some (expiresAt d))).
Proof.
  revert s d. induction steps as [|e steps IH]; intros s d Hi; simpl.
  - exists d. split; [done|]. split; [done|by left].
  - destruct (expire_lookup e s i d Hi) as (d1 & H1 & Hs1 & Ha1).
    destruct (IH _ _ H1) as (d2 & H2 & Hs2 & Ha2).
    exists d2. split; [done|].
    split; [by eapply same_record_trans|].
    apply same_record_fields in Hs1 as [_ He].
    destruct Ha2 as [Ha2|[Ha2 Hsome]].
    + rewrite Ha2. destruct Ha1 as [?|(?&?&?)]; [by left|by right].
    + right. by rewrite He in Hsome.
Qed.

(** C6. A document without [expiresAt] goes through any sequence of sweep
    ticks and validations with its [isActive] as it was, whatever that
    was, and still without [expiresAt]. *)
Theorem permanent_never_auto_expired steps s i d :
  s !! i = Some d → expiresAt d = None →
  ∃ d', expire_all steps s !! i = Some d' ∧
        isActive d' = isActive d ∧ expiresAt d' = None ∧ key d' = key d.
Proof.
  intros Hi He.
  destruct (expire_all_lookup steps s i d Hi) as (d' & H' & Hs & Ha).
  exists d'. split; [done|].
  apply same_record_fields in Hs as [Hk He']. rewrite He', Hk.
  split_and!; [|done..].
  destruct Ha as [?|[_ Hsome]]; [done|].
  rewrite He in Hsome. by destruct Hsome.
Qed.

(** [permanent_never_auto_expired] for a permanent key through a tick, a
    validation and another tick. *)
Lemma permanent_never_auto_expired_witness :
  let d := mkSubscription "K1" 7 None None None "pro" (Some 0%Z) None
             (Some true) (Some false) (Some 0%Z) (Some 0%Z) in
  let steps := [SweepTick 3600000; Validation "K1" 3600001; SweepTick 7200000] in
  ∃ d', expire_all steps [d] !! 0 = Some d' ∧
        isActive d' = isActive d ∧ expiresAt d' = None ∧ key d' = key d.
Proof.
  intros d steps.
  apply (permanent_never_auto_expired steps [d] 0 d); reflexivity.
Defined.

(** ** Create *)

Lemma post_subscriptions_unfold M b now s :
  post_subscriptions M b now s =
  if negb (truthy (req_userId b)) || negb (truthy (req_subscriptionType b))
     || negb (truthy (req_key b)) then
    (mkResponse 400 (Message false "Missing required fields: userId, subscriptionType, key"),
     s, [])
  else
    match new_Subscription M b (expiry_of M (req_durationDays b) now) now with
    | None => (internal_error, s, [])
    | Some d =>
        if decide (key d ∈ key <$> s) then
          (mkResponse 409 (Message false "Subscription key already exists"), s, [])
        else
          (mkResponse 201 (MessageData true "Subscription key created successfully" d),
           s ++ [d], [Inserted d])
    end.
Proof.
  unfold post_subscriptions.
  destruct (_ || _); [reflexivity|].
  destruct (new_Subscription _ _ _ _) as [d|]; [|reflexivity].
  unfold mbind, DB_bind, insertOne. case_decide; reflexivity.
Qed.

Lemma new_Subscription_Some M b ex now d :
  new_Subscription M b ex now = Some d →
  ex = Some (expiresAt d) ∧ isActive d = Some true ∧
  required_string (cast (castString M) (req_key b)) = Some (key d).
Proof.
  unfold new_Subscription. intros H.
  destruct (required_string (cast (castString M) (req_key b))); [|done].
  destruct (required (cast (castNumber M) (req_userId b))); [|done].
  destruct (cast (castString M) (req_username b)); [|done].
  destruct (cast (castString M) (req_firstName b)); [|done].
  destruct (cast (castString M) (req_lastName b)); [|done].
  destruct (required_string (cast (castString M) (req_subscriptionType b))); [|done].
  destruct ex; [|done].
  simpl in H. inversion H. done.
Qed.

(** A request fails without a trace: only the answer 201 comes with a
    change of the collection. *)
Lemma post_subscriptions_atomic M b now s :
  status (result (post_subscriptions M b now s)) ≠ 201 →
  store_of (post_subscriptions M b now s) = s ∧
  writes (post_subscriptions M b now s) = [].
Proof.
  rewrite post_subscriptions_unfold.
  destruct (_ || _); [done|].
  destruct (new_Subscription _ _ _ _) as [d|]; [|done].
  case_decide; done.
Qed.

(** C10. A create request whose [userId] is the number 0, or whose [key]
    or [subscriptionType] is the empty string, is answered 400 with the
    missing-fields message; the collection is as before and nothing is
    written. *)
Theorem create_missing_required M b now s :
  req_userId b = JNum 0 ∨ req_key b = JStr "" ∨ req_subscriptionType b = JStr "" →
  post_subscriptions M b now s =
  (mkResponse 400 (Message false "Missing required fields: userId, subscriptionType, key"),
   s, []).
Proof.
  intros H. rewrite post_subscriptions_unfold.
  destruct H as [H|[H|H]]; rewrite H; simpl;
    rewrite ?orb_true_r; reflexivity.
Qed.

(** [create_missing_required] for a request with [userId: 0]. *)
Lemma create_missing_required_witness :
  post_subscriptions typed
    (mkCreateBody (JNum 0) JUndefined JUndefined JUndefined (JStr "pro") (JStr "K1") JUndefined)
    1000 [] =
  (mkResponse 400 (Message false "Missing required fields: userId, subscriptionType, key"),
   [], []).
Proof.
  apply (create_missing_required typed
           (mkCreateBody (JNum 0) JUndefined JUndefined JUndefined (JStr "pro") (JStr "K1") JUndefined)
           1000 []).
  left. reflexivity.
Defined.

(** C8. A create request that carries its required fields and builds a
    valid document [d] is answered 409 when the collection holds a document
    with [d]'s key; the collection, and with it that document, is as
    before, and nothing is written. *)
Theorem create_duplicate_conflict M b now s d i d0 :
  truthy (req_userId b) = true →
  truthy (req_subscriptionType b) = true →
  truthy (req_key b) = true →
  new_Subscription M b (expiry_of M (req_durationDays b) now) now = Some d →
  s !! i = Some d0 → key d0 = key d →
  post_subscriptions M b now s =
    (mkResponse 409 (Message false "Subscription key already exists"), s, []) ∧
  store_of (post_subscriptions M b now s) !! i = Some d0.
Proof.
  intros Hu Ht Hk Hnew Hi Hkey.
  rewrite post_subscriptions_unfold, Hu, Ht, Hk, Hnew. simpl.
  rewrite decide_True; [done|].
  apply list_elem_of_lookup. exists i.
  rewrite list_lookup_fmap, Hi. simpl. by rewrite Hkey.
Qed.

(** [create_duplicate_conflict] for key ["K1"], created at time 1000 and
    asked for again at time 2000. *)
Lemma create_duplicate_conflict_witness :
  let b := mkCreateBody (JNum 7) JUndefined JUndefined JUndefined
             (JStr "pro") (JStr "K1") (JNum 30) in
  let s := store_of (post_subscriptions typed b 1000 []) in
  length s = 1 ∧
  post_subscriptions typed b 2000 s =
    (mkResponse 409 (Message false "Subscription key already exists"), s, []) ∧
  store_of (post_subscriptions typed b 2000 s) !! 0 =
    Some (mkSubscription "K1" 7 None None None "pro" (Some 1000%Z)
            (Some 2592001000%Z) (Some true) (Some false) (Some 0%Z) (Some 1000%Z)).
Proof.
  intros b s. split; [reflexivity|].
  apply (create_duplicate_conflict typed b 2000 s
           (mkSubscription "K1" 7 None None None "pro" (Some 2000%Z)
              (Some 2592002000%Z) (Some true) (Some false) (Some 0%Z) (Some 2000%Z))
           0); reflexivity.
Defined.

(** The date the handler computes for an integer [durationDays]: for a
    positive one, the local time of [now] moved on by that many days. *)
Lemma expiry_of_integer M n now :
  expiry_of M (JNum n) now =
  if (0 <? n)%Z
  then Some <$> TimeClip (UTC M (LocalTime M now + n * msPerDay)%Z)
  else Some None.
Proof.
  unfold expiry_of, setDate, plus, getDate, truncate. simpl.
  destruct (0 <? n)%Z eqn:Hpos.
  - assert (E0 : (n =? 0)%Z = false) by (apply Z.eqb_neq; apply Z.ltb_lt in Hpos; lia).
    rewrite E0. simpl. rewrite Z.quot_1_r.
    do 3 f_equal. lia.
  - by rewrite andb_false_r.
Qed.

(** The calendar at some known dates: 1 January 1970, 31 January 1970,
    29 February 2024, 31 December 1969. *)
Example DateFromTime_known :
  DateFromTime 0 = 1%Z ∧ DateFromTime (30 * msPerDay) = 31%Z ∧
  DateFromTime (19782 * msPerDay + 3600000) = 29%Z ∧ DateFromTime (-1) = 31%Z.
Proof. split_and!; reflexivity. Qed.

(** C7. The handler adds [durationDays] with [+] to the day of the month,
    which gives the date of the claim for a positive integer and not for a
    positive value of another kind. At time 0, which is midnight of a first
    of the month in UTC, [durationDays] 30 gives a key that expires thirty
    days later; the string "30" gives one that expires 129 days later, as
    ["1" + "30"] is day 130 of the month; the fraction 3/2 gives one day,
    and 1/2 a key that expires at the time of its creation. Zero and a
    missing [durationDays] give a key without [expiresAt]. *)
Lemma create_duration_added_to_day_of_month :
  let create := λ durationDays,
    post_subscriptions typed
      (mkCreateBody (JNum 7) JUndefined JUndefined JUndefined
         (JStr "pro") (JStr "K1") durationDays) 0 [] in
  status (result (create (JStr "30"))) = 201 ∧
  expiresAt <$> store_of (create (JStr "30")) = [Some (129 * msPerDay)%Z] ∧
  expiresAt <$> store_of (create (JNum 30)) = [Some (30 * msPerDay)%Z] ∧
  expiresAt <$> store_of (create (JFrac 3 2)) = [Some (1 * msPerDay)%Z] ∧
  expiresAt <$> store_of (create (JFrac 1 2)) = [Some 0%Z] ∧
  expiresAt <$> store_of (create (JNum 0)) = [None] ∧
  expiresAt <$> store_of (create JUndefined) = [None].
Proof. intros create. split_and!; reflexivity. Qed.

(** ** Update and delete *)

Lemma put_subscription_unfold M k updates s :
  put_subscription M k updates s =
  match list_find (λ d, key d = k) s with
  | None => (mkResponse 404 (Message false "Subscription key not found"), s, [])
  | Some (i, d) =>
      match apply_updates M updates d with
      | None => (internal_error, s, [])
      | Some d' =>
          if decide (key d' ∈ key <$> delete i s) then (internal_error, s, [])
          else (mkResponse 200 (MessageData true "Subscription updated successfully" d'),
                <[i := d']> s, if decide (d' = d) then [] else [Saved i d'])
      end
  end.
Proof.
  unfold put_subscription, mbind, DB_bind, findOne.
  destruct (list_find _ s) as [[i d]|] eqn:Hfind; [|reflexivity].
  apply list_find_Some in Hfind as (Hi & _ & _).
  destruct (apply_updates M updates d) as [d'|]; [|reflexivity].
  unfold save_checked. case_decide; [reflexivity|].
  case_decide as Hsame.
  - rewrite Hi in Hsame. injection Hsame as <-.
    rewrite decide_True by done. simpl. by rewrite list_insert_id.
  - rewrite decide_False; [reflexivity|]. intros ->. done.
Qed.

Lemma delete_subscription_store k s :
  store_of (delete_subscription k s) =
  match list_find (λ d, key d = k) s with
  | None => s
  | Some (i, _) => delete i s
  end.
Proof.
  unfold delete_subscription, mbind, DB_bind, findOneAndDelete.
  destruct (list_find _ s) as [[i d]|]; reflexivity.
Qed.

Ltac assign_case H :=
  match type of H with
  | (if String.eqb ?f ?p then _ else _) = Some _ =>
      destruct (String.eqb f p) eqn:?
  end.

(** An assignment to a path other than [key] leaves [key] alone. *)
Lemma assign_key M field v d d' :
  field ≠ "key" → assign M field v d = Some d' → key d' = key d.
Proof.
  intros Hne H. unfold assign in H.
  apply String.eqb_neq in Hne. rewrite Hne in H.
  repeat (assign_case H;
          [match type of H with
           | (?c ≫= _) = Some _ => destruct c; [by inversion H|done]
           end|]).
  destruct (acceptsOther M field v); [by inversion H|done].
Qed.

Lemma apply_updates_key M updates d d' :
  "key" ∉ updates.*1 → apply_updates M updates d = Some d' → key d' = key d.
Proof.
  revert d. induction updates as [|[field v] rest IH]; intros d Hnot H; simpl in *.
  - by inversion H.
  - apply not_elem_of_cons in Hnot as [Hne Hrest].
    case_decide.
    + destruct (assign M field v d) as [d1|] eqn:Ha; [|done]. simpl in H.
      rewrite (IH d1 Hrest H).
      apply (assign_key M field v); [congruence|done].
    + by apply IH.
Qed.

(** ** The unique index holds in every collection the server reaches *)

Lemma NoDup_insert_delete {A} (l : list A) i y :
  i < length l → y ∉ delete i l → NoDup (delete i l) → NoDup (<[i:=y]> l).
Proof.
  intros Hi Hy Hd. rewrite insert_take_drop by done.
  rewrite delete_take_drop in Hy, Hd.
  rewrite <- Permutation_middle. by apply NoDup_cons.
Qed.

Lemma connect_keys k now s : key <$> store_of (connect k now s) = key <$> s.
Proof.
  rewrite connect_unfold.
  destruct (list_find _ s) as [[i d]|] eqn:Hfind; [|done].
  apply list_find_Some in Hfind as (Hi & _ & _).
  destruct (expired d now); unfold store_of; simpl;
    rewrite list_fmap_insert; simpl; apply list_insert_id;
    by rewrite list_lookup_fmap, Hi.
Qed.

Lemma sweep_tick_keys now s : key <$> store_of (sweep_tick now s) = key <$> s.
Proof.
  rewrite sweep_tick_store, <- list_fmap_compose.
  apply list_fmap_ext. intros i d _. simpl. by case_decide.
Qed.

Lemma expire_all_keys steps s : key <$> expire_all steps s = key <$> s.
Proof.
  revert s. induction steps as [|e steps IH]; intros s; simpl; [done|].
  rewrite IH. destruct e; simpl; [apply sweep_tick_keys|apply connect_keys].
Qed.

Lemma handle_unique_keys M r now s :
  unique_keys s → unique_keys (handle M r now s).
Proof.
  unfold unique_keys. intros Hu. destruct r as [k|b|k updates|k| |]; simpl.
  - by rewrite connect_keys.
  - rewrite post_subscriptions_unfold.
    destruct (_ || _); [done|].
    destruct (new_Subscription _ _ _ _) as [d|]; [|done].
    case_decide as Hin; [done|]. unfold store_of; simpl.
    rewrite fmap_app. apply NoDup_app. split_and!; [done| |apply NoDup_singleton].
    intros x Hx Hx'. apply list_elem_of_singleton in Hx'. by subst.
  - rewrite put_subscription_unfold.
    destruct (list_find _ s) as [[i d]|] eqn:Hfind; [|done].
    apply list_find_Some in Hfind as (Hi & _ & _).
    destruct (apply_updates M updates d) as [d'|]; [|done].
    case_decide as Hin; [done|]. unfold store_of; simpl.
    rewrite list_fmap_insert. rewrite list_fmap_delete in Hin.
    apply NoDup_insert_delete; [|done|].
    + rewrite length_fmap. by eapply lookup_lt_Some.
    + eapply sublist_NoDup; [done|apply sublist_delete].
  - rewrite delete_subscription_store.
    destruct (list_find _ s) as [[i d]|]; [|done].
    rewrite list_fmap_delete.
    eapply sublist_NoDup; [done|apply sublist_delete].
  - by rewrite post_cleanup_store, sweep_tick_keys.
  - by rewrite sweep_tick_keys.
Qed.

Lemma reachable_unique_keys M s : reachable M s → unique_keys s.
Proof.
  induction 1 as [|s r now _ IH].
  - apply NoDup_nil_2.
  - by apply handle_unique_keys.
Qed.

(** Only a delete request takes a document out of the collection. *)
Lemma handle_keeps M r now s i d :
  (∀ k, r ≠ Delete k) → s !! i = Some d → is_Some (handle M r now s !! i).
Proof.
  intros Hr Hi. apply lookup_lt_is_Some.
  assert (Hlen : i < length s) by (by eapply lookup_lt_Some).
  assert (Hkeys : ∀ s', key <$> s' = key <$> s → i < length s').
  { intros s' E. rewrite <- (length_fmap key), E, length_fmap. done. }
  destruct r as [k|b|k updates|k| |]; simpl.
  - apply Hkeys, connect_keys.
  - rewrite post_subscriptions_unfold.
    destruct (_ || _); [done|].
    destruct (new_Subscription _ _ _ _) as [x|]; [|done].
    case_decide; [done|]. unfold store_of; simpl. rewrite length_app. lia.
  - rewrite put_subscription_unfold.
    destruct (list_find _ s) as [[j x]|]; [|done].
    destruct (apply_updates M updates x) as [x'|]; [|done].
    case_decide; [done|]. unfold store_of; simpl. by rewrite length_insert.
  - by destruct (Hr k).
  - rewrite post_cleanup_store. apply Hkeys, sweep_tick_keys.
  - apply Hkeys, sweep_tick_keys.
Qed.

(** An update of [key] alone puts the new key on the document. *)
Lemma put_key M k v s i d x :
  list_find (λ d, key d = k) s = Some (i, d) →
  required_string (cast (castString M) v) = Some x →
  x ∉ key <$> delete i s →
  put_subscription M k [("key", v)] s =
    (mkResponse 200 (MessageData true "Subscription updated successfully" (set_key x d)),
     <[i := set_key x d]> s,
     if decide (set_key x d = d) then [] else [Saved i (set_key x d)]).
Proof.
  intros Hfind Hcast Hfresh. rewrite put_subscription_unfold, Hfind.
  assert (apply_updates M [("key", v)] d = Some (set_key x d)) as ->.
  { cbn. unfold assign. cbn. by rewrite Hcast. }
  by rewrite decide_False.
Qed.

(** The validation of a key that was switched back on although its
    [expiresAt] has passed. *)
Lemma connect_reactivated s i d now :
  unique_keys s → s !! i = Some d → isActive d = Some false →
  connect (key d) now (<[i := toggled d]> s) =
  if expired d now then
    (mkResponse 410 (Message false "Subscription key has expired"), s,
     [Saved i d])
  else
    (mkResponse 200 (Data true (set_lastChecked (Some now) (toggled d))),
     <[i := set_lastChecked (Some now) (toggled d)]> s,
     if decide (lastChecked d = Some now) then []
     else [Saved i (set_lastChecked (Some now) (toggled d))]).
Proof.
  intros Hu Hi Ha.
  assert (Hlen : i < length s) by (by eapply lookup_lt_Some).
  assert (Hu' : unique_keys (<[i := toggled d]> s)).
  { unfold unique_keys. rewrite list_fmap_insert. simpl.
    rewrite list_insert_id; [done|]. by rewrite list_lookup_fmap, Hi. }
  assert (Hi' : <[i := toggled d]> s !! i = Some (toggled d))
    by (by apply list_lookup_insert_eq).
  rewrite connect_unfold.
  rewrite (find_by_key (λ x, isActive x = Some true) _ i (toggled d) Hu' Hi').
  rewrite decide_True by (unfold toggled; simpl; by rewrite Ha).
  replace (expired (toggled d) now) with (expired d now) by done.
  rewrite !list_insert_insert_eq.
  destruct (expired d now); [|done].
  replace (set_isActive (Some false) (toggled d)) with d
    by (destruct d; simpl in *; by subst).
  by rewrite (list_insert_id s i d Hi).
Qed.

(** In a field map whose names are distinct, as the names of an object
    are, the entry of [key] decides the key of the updated document. *)
Lemma apply_updates_sets_key M updates v d d' :
  NoDup updates.*1 → ("key", v) ∈ updates →
  apply_updates M updates d = Some d' →
  required_string (cast (castString M) v) = Some (key d').
Proof.
  revert d. induction updates as [|[field w] rest IH]; intros d Hnd Hin Hup.
  - by apply elem_of_nil in Hin.
  - simpl in Hnd. apply NoDup_cons in Hnd as [Hfresh Hnd].
    apply elem_of_cons in Hin as [[= <- <-]|Hin].
    + cbn in Hup. unfold assign in Hup. cbn in Hup.
      destruct (required_string (cast (castString M) v)) as [x|] eqn:Hx; [|done].
      simpl in Hup. rewrite (apply_updates_key M rest _ d' Hfresh Hup). done.
    + simpl in Hup. case_decide.
      * destruct (assign M field w d) as [d1|]; [|done]. simpl in Hup.
        by apply (IH d1).
      * by apply (IH d).
Qed.

End ApiFacts.

(** * Properties of the admin console *)

Module AdminFacts.
Import Admin.

Lemma toggle_found id keys i k :
  findById id keys = Some (i, k) →
  toggle id keys =
    (Json 200 true
       ("Ключ " +:+ (if negb (isActive k) then "активирован" else "деактивирован"))
       (Some (negb (isActive k))),
     <[i := set_isActive (negb (isActive k)) k]> keys).
Proof. unfold toggle. by intros ->. Qed.

Lemma toggle_keys id keys : key <$> (toggle id keys).2 = key <$> keys.
Proof.
  unfold toggle. destruct (findById id keys) as [[i k]|] eqn:Hfind; [|done].
  apply list_find_Some in Hfind as (Hi & _ & _). simpl.
  rewrite list_fmap_insert. simpl. apply list_insert_id.
  by rewrite list_lookup_fmap, Hi.
Qed.

(** The timer keeps exactly the keys its filter does not match. *)
Lemma sweep_keeps now keys k :
  k ∈ (sweep now keys).2 ↔
  k ∈ keys ∧ ¬ (isPermanent k = false ∧ date_lt (expiresAt k) now).
Proof. unfold sweep, sweep_filter. simpl. rewrite list_elem_of_filter. tauto. Qed.

(** A key created with an expiry date at 1000 is gone after the timer
    runs at 2000. *)
Example sweep_after_expiry :
  let keys := (post_keys typed "6fa459ea" 1 0
                 (mkKeyForm (JStr "pro") (Some 1000%Z) JUndefined) []).2 in
  keys = [mkKey 1 "6fa459ea" None "pro" 0 (Some 1000%Z) true false] ∧
  sweep 2000 keys = (1, []).
Proof. split; reflexivity. Qed.

End AdminFacts.

(** * The lifecycle across the two programs *)

(** C1, as stated, fails on the admin console: its hourly timer deletes. A
    key created through the form with an expiry date at 1000 is in the
    collection, and after the timer has run at 2000 the collection is
    empty. *)
Lemma admin_sweep_removes_expired_key :
  let keys := (Admin.post_keys typed "6fa459ea" 1 0
                 (Admin.mkKeyForm (JStr "pro") (Some 1000%Z) JUndefined) []).2 in
  length keys = 1 ∧
  (Admin.sweep 2000 keys).2 = [] ∧
  ¬ (∀ now ks k, k ∈ ks → k ∈ (Admin.sweep now ks).2).
Proof.
  intros keys. split_and!; [reflexivity..|].
  intros H.
  specialize (H 2000%Z keys (Admin.mkKey 1 "6fa459ea" None "pro" 0 (Some 1000%Z) true false)).
  assert (Hin : Admin.mkKey 1 "6fa459ea" None "pro" 0 (Some 1000%Z) true false ∈ keys)
    by (vm_compute; constructor).
  apply H in Hin. vm_compute in Hin. inversion Hin.
Qed.

(** C1, amended. In the API server no expiration step removes a document:
    through any sequence of sweep ticks and validations the collection keeps
    its length and its keys, every document stays at its place with all its
    fields but [isActive] and [lastChecked], and its [isActive] is as before
    or [false]; and of all requests only a delete takes a document out. In
    the admin console the hourly timer keeps exactly the keys that are
    permanent or have no [expiresAt] earlier than [now], and removes the
    others. *)
Theorem expiration_deactivates_in_api_deletes_in_admin :
  (∀ steps s,
     length (Api.expire_all steps s) = length s ∧
     Api.key <$> Api.expire_all steps s = Api.key <$> s ∧
     ∀ i d, s !! i = Some d →
       ∃ d', Api.expire_all steps s !! i = Some d' ∧ Api.same_record d d' ∧
             (Api.isActive d' = Api.isActive d ∨ Api.isActive d' = Some false)) ∧
  (∀ M r now s i d,
     (∀ k, r ≠ Api.Delete k) → s !! i = Some d →
     is_Some (Api.handle M r now s !! i)) ∧
  (∀ now keys k,
     k ∈ (Admin.sweep now keys).2 ↔
     k ∈ keys ∧ ¬ (Admin.isPermanent k = false ∧ date_lt (Admin.expiresAt k) now)).
Proof.
  split_and!.
  - intros steps s. split_and!.
    + rewrite <- (length_fmap Api.key), ApiFacts.expire_all_keys. apply length_fmap.
    + apply ApiFacts.expire_all_keys.
    + intros i d Hi.
      destruct (ApiFacts.expire_all_lookup steps s i d Hi) as (d' & H' & Hs & Ha).
      exists d'. split_and!; [done..|]. destruct Ha as [?|[? _]]; auto.
  - apply ApiFacts.handle_keeps.
  - apply AdminFacts.sweep_keeps.
Qed.

(** [expiration_deactivates_in_api_deletes_in_admin] on a collection with
    one expired key, through a tick and a validation. *)
Lemma expiration_deactivates_in_api_deletes_in_admin_witness :
  let d := Api.mkSubscription "K1" 7 None None None "pro" (Some 0%Z) (Some 100%Z)
             (Some true) (Some false) (Some 0%Z) (Some 0%Z) in
  (∃ d', Api.expire_all [Api.SweepTick 200; Api.Validation "K1" 300] [d] !! 0 = Some d' ∧
         Api.same_record d d' ∧
         (Api.isActive d' = Api.isActive d ∨ Api.isActive d' = Some false)) ∧
  is_Some (Api.handle typed Api.Cleanup 200 [d] !! 0).
Proof.
  intros d.
  pose proof expiration_deactivates_in_api_deletes_in_admin as (Hsteps & Hkeep & _).
  split.
  - apply (Hsteps [Api.SweepTick 200; Api.Validation "K1" 300] [d]). reflexivity.
  - apply (Hkeep typed Api.Cleanup 200%Z [d] 0 d); [intros k; discriminate|reflexivity].
Defined.

(** C2, as stated, fails on the update: [key] is a path of the schema like
    the others. The key ["K1"], created at time 1000, is ["K2"] after
    [PUT /subscriptions/K1] with the body [{ key: "K2" }]. *)
Lemma put_changes_key :
  let s := Api.store_of (Api.post_subscriptions typed
             (Api.mkCreateBody (JNum 7) JUndefined JUndefined JUndefined
                (JStr "pro") (JStr "K1") JUndefined) 1000 []) in
  Api.key <$> s = ["K1"] ∧
  Api.status (Api.result (Api.put_subscription typed "K1" [("key", JStr "K2")] s)) = 200 ∧
  Api.key <$> Api.store_of (Api.put_subscription typed "K1" [("key", JStr "K2")] s)
    = ["K2"].
Proof. intros s. split_and!; reflexivity. Qed.

(** C2, amended. The keys of the collection are as before after a
    validation, a sweep tick, an on-demand cleanup, an update whose field map
    has no [key] entry (the freeze and unfreeze updates of [isFrozen] among
    them) and, in the admin console, a toggle. An update whose field map has
    a [key] entry changes the key only when it is answered 200: then the
    document found has the value of that entry, cast to a non-empty string,
    as its key; answered 404 or 500, because a field does not cast or
    validate or another document holds the key, it changes nothing. An
    update whose field map is a [key] entry alone, with a value that casts to
    a non-empty string no other document holds, is such an update answered
    200. *)
Theorem key_changes_only_by_update_of_key :
  (∀ k now s, Api.key <$> Api.store_of (Api.connect k now s) = Api.key <$> s) ∧
  (∀ now s, Api.key <$> Api.store_of (Api.sweep_tick now s) = Api.key <$> s) ∧
  (∀ now s, Api.key <$> Api.store_of (Api.post_cleanup now s) = Api.key <$> s) ∧
  (∀ M k updates s,
     "key" ∉ updates.*1 →
     Api.key <$> Api.store_of (Api.put_subscription M k updates s) = Api.key <$> s) ∧
  (∀ M k v s,
     Api.key <$> Api.store_of (Api.put_subscription M k [("isFrozen", v)] s)
     = Api.key <$> s) ∧
  (∀ id keys, Admin.key <$> (Admin.toggle id keys).2 = Admin.key <$> keys) ∧
  (∀ M k v s i d x,
     list_find (λ d, Api.key d = k) s = Some (i, d) →
     required_string (cast (castString M) v) = Some x →
     x ∉ Api.key <$> delete i s →
     Api.store_of (Api.put_subscription M k [("key", v)] s) !! i
     = Some (Api.set_key x d)) ∧
  (∀ M k updates v s,
     NoDup updates.*1 → ("key", v) ∈ updates →
     (Api.status (Api.result (Api.put_subscription M k updates s)) = 200 →
      ∃ i d d',
        list_find (λ d, Api.key d = k) s = Some (i, d) ∧
        Api.store_of (Api.put_subscription M k updates s) = <[i := d']> s ∧
        Api.store_of (Api.put_subscription M k updates s) !! i = Some d' ∧
        required_string (cast (castString M) v) = Some (Api.key d')) ∧
     (Api.status (Api.result (Api.put_subscription M k updates s)) ≠ 200 →
      Api.store_of (Api.put_subscription M k updates s) = s)).
Proof.
  assert (Hput : ∀ M k updates s,
     "key" ∉ updates.*1 →
     Api.key <$> Api.store_of (Api.put_subscription M k updates s) = Api.key <$> s).
  { intros M k updates s Hnot. rewrite ApiFacts.put_subscription_unfold.
    destruct (list_find _ s) as [[i d]|] eqn:Hfind; [|done].
    apply list_find_Some in Hfind as (Hi & _ & _).
    destruct (Api.apply_updates M updates d) as [d'|] eqn:Hup; [|done].
    case_decide; [done|]. unfold Api.store_of; simpl.
    rewrite list_fmap_insert, (ApiFacts.apply_updates_key M updates d d' Hnot Hup).
    apply list_insert_id. by rewrite list_lookup_fmap, Hi. }
  split_and!.
  - apply ApiFacts.connect_keys.
  - apply ApiFacts.sweep_tick_keys.
  - intros now s. rewrite ApiFacts.post_cleanup_store. apply ApiFacts.sweep_tick_keys.
  - done.
  - intros M k v s. apply Hput. simpl.
    intros Hin. apply list_elem_of_singleton in Hin. discriminate.
  - apply AdminFacts.toggle_keys.
  - intros M k v s i d x Hfind Hcast Hfresh.
    rewrite (ApiFacts.put_key M k v s i d x Hfind Hcast Hfresh).
    unfold Api.store_of; simpl. apply list_lookup_insert_eq.
    apply list_find_Some in Hfind as (Hi & _ & _). by eapply lookup_lt_Some.
  - intros M k updates v s Hnd Hin.
    rewrite ApiFacts.put_subscription_unfold.
    destruct (list_find _ s) as [[i d]|] eqn:Hfind; [|done].
    pose proof Hfind as Hfind0.
    apply list_find_Some in Hfind as (Hi & _ & _).
    destruct (Api.apply_updates M updates d) as [d'|] eqn:Hup; [|done].
    case_decide; [done|]. unfold Api.result, Api.store_of. simpl.
    split; [|done]. intros _. exists i, d, d'. split_and!; [done..| |].
    + apply list_lookup_insert_eq. by eapply lookup_lt_Some.
    + by apply (ApiFacts.apply_updates_sets_key M updates v d d').
Qed.

(** [key_changes_only_by_update_of_key] on the key ["K1"]: frozen, it keeps
    its key; updated with [{ key: "K2" }], or with that and a freeze, it has
    the key ["K2"]; updated with [{ key: "K2", userId: null }], which is
    answered 500, it keeps the key ["K1"]. *)
Lemma key_changes_only_by_update_of_key_witness :
  let d := Api.mkSubscription "K1" 7 None None None "pro" (Some 0%Z) None
             (Some true) (Some false) (Some 0%Z) (Some 0%Z) in
  Api.key <$> Api.store_of
     (Api.put_subscription typed "K1" [("isFrozen", JBool true); ("note", JStr "x")] [d])
    = Api.key <$> [d] ∧
  Api.store_of (Api.put_subscription typed "K1" [("key", JStr "K2")] [d]) !! 0
    = Some (Api.set_key "K2" d) ∧
  (∃ i x d',
     list_find (λ d, Api.key d = "K1") [d] = Some (i, x) ∧
     Api.store_of (Api.put_subscription typed "K1"
                     [("isFrozen", JBool true); ("key", JStr "K2")] [d]) = <[i := d']> [d] ∧
     Api.store_of (Api.put_subscription typed "K1"
                     [("isFrozen", JBool true); ("key", JStr "K2")] [d]) !! i = Some d' ∧
     required_string (cast (castString typed) (JStr "K2")) = Some (Api.key d')) ∧
  Api.store_of (Api.put_subscription typed "K1"
                  [("key", JStr "K2"); ("userId", JNull)] [d]) = [d].
Proof.
  intros d.
  pose proof key_changes_only_by_update_of_key
    as (_ & _ & _ & Hput & _ & _ & Hkey & Hany).
  split_and!.
  - apply (Hput typed "K1" [("isFrozen", JBool true); ("note", JStr "x")] [d]).
    compute_done.
  - apply (Hkey typed "K1" (JStr "K2") [d] 0 d "K2"); [reflexivity..|].
    compute_done.
  - apply (Hany typed "K1" [("isFrozen", JBool true); ("key", JStr "K2")]
             (JStr "K2") [d]); [compute_done|repeat constructor|reflexivity].
  - apply (Hany typed "K1" [("key", JStr "K2"); ("userId", JNull)]
             (JStr "K2") [d]); [compute_done|repeat constructor|discriminate].
Defined.

(** C9, as stated, fails on the validation that follows: it tests
    [expiresAt] again. The key ["K1"], expired at 100 and inactive, is
    switched on, by the toggle statement or by the update
    [{ isActive: true }]; its validation at 200 answers 410, not 200, and
    leaves it inactive. *)
Lemma reactivated_expired_key_expires_again :
  let d := Api.mkSubscription "K1" 7 None None None "pro" (Some 0%Z) (Some 100%Z)
             (Some false) (Some false) (Some 0%Z) (Some 0%Z) in
  let s := <[0 := Api.toggled d]> [d] in
  Api.isActive <$> s = [Some true] ∧
  Api.store_of (Api.put_subscription typed "K1" [("isActive", JBool true)] [d]) = s ∧
  Api.status (Api.result (Api.connect "K1" 200 s)) = 410 ∧
  Api.status (Api.result (Api.connect "K1" 200 s)) ≠ 200 ∧
  Api.isActive <$> Api.store_of (Api.connect "K1" 200 s) = [Some false].
Proof. intros d s. split_and!; [reflexivity..|discriminate|reflexivity]. Qed.

(** C9, amended. The toggle of the admin console writes the negation of
    [isActive] on the key it finds and answers with it, whatever the key's
    [expiresAt]. A document of the API server that is inactive and is
    switched on is found by the next validation of its key (200, with
    [lastChecked] set) only if it has no [expiresAt] earlier than [now]; if
    it has, the validation answers 410 and writes the document back
    inactive, as it was. *)
Theorem toggle_flips_and_validation_rechecks :
  (∀ id keys i k,
     Admin.findById id keys = Some (i, k) →
     Admin.toggle id keys =
       (Admin.Json 200 true
          ("Ключ " +:+ (if negb (Admin.isActive k) then "активирован" else "деактивирован"))
          (Some (negb (Admin.isActive k))),
        <[i := Admin.set_isActive (negb (Admin.isActive k)) k]> keys)) ∧
  (∀ s i d now,
     Api.unique_keys s → s !! i = Some d → Api.isActive d = Some false →
     Api.isActive (Api.toggled d) = Some true ∧
     (date_lt (Api.expiresAt d) now →
      Api.connect (Api.key d) now (<[i := Api.toggled d]> s) =
        (Api.mkResponse 410 (Api.Message false "Subscription key has expired"),
         s, [Api.Saved i d])) ∧
     (¬ date_lt (Api.expiresAt d) now →
      Api.status (Api.result (Api.connect (Api.key d) now (<[i := Api.toggled d]> s)))
      = 200)).
Proof.
  split.
  - apply AdminFacts.toggle_found.
  - intros s i d now Hu Hi Ha.
    pose proof (ApiFacts.connect_reactivated s i d now Hu Hi Ha) as Hc.
    pose proof (ApiFacts.expired_date_lt d now) as He.
    split_and!.
    + unfold Api.toggled. simpl. by rewrite Ha.
    + intros Hlt. apply He in Hlt. by rewrite Hc, Hlt.
    + intros Hnot. rewrite Hc. destruct (Api.expired d now); [|done].
      destruct Hnot. by apply He.
Qed.

(** [toggle_flips_and_validation_rechecks] on an active admin key with a
    passed [expiresAt], and on the expired API key ["K1"]. *)
Lemma toggle_flips_and_validation_rechecks_witness :
  let k := Admin.mkKey 1 "6fa459ea" None "pro" 0 (Some 1000%Z) true false in
  let d := Api.mkSubscription "K1" 7 None None None "pro" (Some 0%Z) (Some 100%Z)
             (Some false) (Some false) (Some 0%Z) (Some 0%Z) in
  Admin.toggle 1 [k] =
    (Admin.Json 200 true "Ключ деактивирован" (Some false),
     [Admin.set_isActive false k]) ∧
  Api.connect "K1" 200 (<[0 := Api.toggled d]> [d]) =
    (Api.mkResponse 410 (Api.Message false "Subscription key has expired"),
     [d], [Api.Saved 0 d]).
Proof.
  intros k d.
  pose proof toggle_flips_and_validation_rechecks as [Htoggle Hconnect].
  split.
  - apply (Htoggle 1 [k] 0 k). reflexivity.
  - destruct (Hconnect [d] 0 d 200%Z) as (_ & Hexp & _).
    + unfold Api.unique_keys. simpl. apply NoDup_singleton.
    + reflexivity.
    + reflexivity.
    + apply Hexp. simpl. lia.
Defined.

(** * Further properties of the API server *)

Module ApiMore.
Import Api.

(** ** The API key *)

Lemma STATIC_API_KEY_nonempty env : STATIC_API_KEY env ≠ "".
Proof.
  unfold STATIC_API_KEY, or_else. destruct env as [x|]; [|done].
  destruct (String.eqb x "") eqn:E; [done|]. by apply String.eqb_neq.
Qed.

(** X1. A request reaches the handler of its route exactly when its
    [x-api-key] header or, that header being absent or empty, its [apiKey]
    query parameter is the configured key; every other request is answered
    401 and leaves the collection alone. So a header that is there and wrong
    is refused even when the query parameter is right. *)
Theorem verifyApiKey_header_first env header query next s :
  verifyApiKey env header query next s =
    (if decide (or_else header query = Some (STATIC_API_KEY env))
     then next s else (unauthorized, s, [])) ∧
  (∀ h, header = Some h → h ≠ "" → h ≠ STATIC_API_KEY env →
        verifyApiKey env header query next s = (unauthorized, s, [])).
Proof.
  assert (Hmain : verifyApiKey env header query next s =
    (if decide (or_else header query = Some (STATIC_API_KEY env))
     then next s else (unauthorized, s, []))).
  { unfold verifyApiKey. destruct (or_else header query) as [a|]; [|done].
    destruct (String.eqb a "") eqn:E0; simpl.
    - apply String.eqb_eq in E0 as ->.
      rewrite decide_False; [done|].
      intros [=H]. by apply (STATIC_API_KEY_nonempty env).
    - destruct (String.eqb a (STATIC_API_KEY env)) eqn:E1; simpl.
      + apply String.eqb_eq in E1 as ->. by rewrite decide_True.
      + apply String.eqb_neq in E1. rewrite decide_False; [done|]. congruence. }
  split; [done|].
  intros h -> Hne Hwrong. rewrite Hmain. simpl.
  apply String.eqb_neq in Hne. rewrite Hne.
  rewrite decide_False; [done|]. congruence.
Qed.

(** [verifyApiKey_header_first] for a wrong header beside the right query
    parameter, in front of a validation. *)
Lemma verifyApiKey_header_first_witness :
  verifyApiKey None (Some "guess") (Some "onyxhub-secret-key-2024")
    (connect "K1" 5) [] = (unauthorized, [], []).
Proof.
  apply (proj2 (verifyApiKey_header_first None (Some "guess")
                  (Some "onyxhub-secret-key-2024") (connect "K1" 5) []) "guess").
  - reflexivity.
  - discriminate.
  - discriminate.
Defined.

(** ** Validation *)

(** X2. The validation of a key that no document holds, or that only
    documents that are not active hold, answers 404, writes nothing and
    leaves the collection as it is. *)
Theorem connect_unknown_or_inactive k now s :
  (∀ d, d ∈ s → key d = k → isActive d ≠ Some true) →
  connect k now s =
    (mkResponse 404 (Message false "Subscription key not found or expired"), s, []).
Proof.
  intros H. rewrite ApiFacts.connect_unfold.
  replace (list_find _ s) with (@None (nat * Subscription)); [done|].
  symmetry. apply list_find_None, Forall_forall. intros d Hd [Hk Ha].
  by apply (H d Hd Hk).
Qed.

(** [connect_unknown_or_inactive] for the key ["ghost"] on a collection
    that holds another key. *)
Lemma connect_unknown_or_inactive_witness :
  let d := mkSubscription "K1" 7 None None None "pro" (Some 0%Z) None
             (Some true) (Some false) (Some 0%Z) (Some 0%Z) in
  connect "ghost" 5 [d] =
    (mkResponse 404 (Message false "Subscription key not found or expired"), [d], []).
Proof.
  intros d. apply (connect_unknown_or_inactive "ghost" 5 [d]).
  intros x Hx Hk. apply list_elem_of_singleton in Hx. subst x. discriminate.
Defined.

(** ** Create *)

Lemma find_appended (P : Subscription → Prop) `{∀ d, Decision (P d)} s d :
  (∀ x, x ∈ s → ¬ P x) → P d → list_find P (s ++ [d]) = Some (length s, d).
Proof.
  intros Hs Hd. rewrite list_find_app_r.
  - simpl. rewrite decide_True by done. done.
  - apply list_find_None, Forall_forall. done.
Qed.

Lemma new_Subscription_expires M b now d0 e :
  new_Subscription M b (Some None) now = Some d0 →
  new_Subscription M b (Some e) now = Some (set_expiresAt e d0).
Proof.
  unfold new_Subscription.
  destruct (required_string (cast (castString M) (req_key b))); [|done].
  destruct (required (cast (castNumber M) (req_userId b))); [|done].
  destruct (cast (castString M) (req_username b)); [|done].
  destruct (cast (castString M) (req_firstName b)); [|done].
  destruct (cast (castString M) (req_lastName b)); [|done].
  destruct (required_string (cast (castString M) (req_subscriptionType b))); [|done].
  simpl. by intros [= <-].
Qed.

(** X3. A create request with a positive integer [durationDays], whose
    required fields are there, whose fields cast, whose key is new and whose
    date is in range, is answered 201 and stores the key with [expiresAt] the
    local time of [now] moved on by that many days; in a time zone without
    clock changes that is [now] plus [durationDays] times 24 hours. The key
    is found (200) by a validation at any time up to [expiresAt], the last
    millisecond included, and is expired (410) at any time after. *)
Theorem created_key_lifetime M b now s n d0 e t :
  truthy (req_userId b) = true →
  truthy (req_subscriptionType b) = true →
  truthy (req_key b) = true →
  req_durationDays b = JNum n → (0 < n)%Z →
  new_Subscription M b (Some None) now = Some d0 →
  key d0 ∉ key <$> s →
  e = UTC M (LocalTime M now + n * msPerDay)%Z →
  (Z.abs e ≤ maxTime)%Z →
  post_subscriptions M b now s =
    (mkResponse 201
       (MessageData true "Subscription key created successfully"
          (set_expiresAt (Some e) d0)),
     s ++ [set_expiresAt (Some e) d0], [Inserted (set_expiresAt (Some e) d0)]) ∧
  status (result (connect (key d0) t (s ++ [set_expiresAt (Some e) d0]))) =
    (if decide (t ≤ e)%Z then 200 else 410) ∧
  ((∀ u isUTC, LocalTZA M u isUTC = LocalTZA M 0 true) →
   e = (now + n * msPerDay)%Z).
Proof.
  intros Hu Ht Hk Hn Hpos Hnew Hfresh He Hrange.
  assert (Hex : expiry_of M (req_durationDays b) now = Some (Some e)).
  { rewrite Hn, ApiFacts.expiry_of_integer.
    assert (E1 : (0 <? n)%Z = true) by (apply Z.ltb_lt; lia).
    rewrite E1, <- He. unfold TimeClip. by rewrite decide_True. }
  pose proof (new_Subscription_expires M b now d0 (Some e) Hnew) as Hnew'.
  assert (Ha : isActive d0 = Some true).
  { by apply ApiFacts.new_Subscription_Some in Hnew as (_ & ? & _). }
  split_and!.
  - rewrite ApiFacts.post_subscriptions_unfold, Hu, Ht, Hk, Hex, Hnew'. simpl.
    by rewrite decide_False.
  - rewrite ApiFacts.connect_unfold.
    rewrite (find_appended (λ x, key x = key d0 ∧ isActive x = Some true) s
               (set_expiresAt (Some e) d0)).
    + unfold expired. simpl. destruct (decide (t ≤ e)%Z) as [Hle|Hle].
      * assert (E : (e <? t)%Z = false) by (apply Z.ltb_ge; lia).
        rewrite E. done.
      * assert (E : (e <? t)%Z = true) by (apply Z.ltb_lt; lia).
        by rewrite E.
    + intros x Hx [Hkx _]. apply Hfresh. rewrite <- Hkx. by apply list_elem_of_fmap_2.
    + done.
  - intros Hzone. rewrite He. unfold UTC, LocalTime.
    rewrite (Hzone now true), (Hzone _ false). lia.
Qed.

(** [created_key_lifetime] for thirty days from time 1000, validated at the
    last millisecond, beside another key. *)
Lemma created_key_lifetime_witness :
  let d1 := mkSubscription "K0" 1 None None None "pro" (Some 0%Z) None
              (Some true) (Some false) (Some 0%Z) (Some 0%Z) in
  let b := mkCreateBody (JNum 7) JUndefined JUndefined JUndefined
             (JStr "pro") (JStr "K1") (JNum 30) in
  let d := mkSubscription "K1" 7 None None None "pro" (Some 1000%Z)
             (Some 2592001000%Z) (Some true) (Some false) (Some 0%Z) (Some 1000%Z) in
  post_subscriptions typed b 1000 [d1] =
    (mkResponse 201 (MessageData true "Subscription key created successfully" d),
     [d1; d], [Inserted d]) ∧
  status (result (connect "K1" 2592001000 [d1; d])) = 200 ∧
  ((∀ u isUTC, LocalTZA typed u isUTC = LocalTZA typed 0 true) →
   2592001000%Z = (1000 + 30 * msPerDay)%Z).
Proof.
  intros d1 b d.
  apply (created_key_lifetime typed b 1000 [d1] 30
           (mkSubscription "K1" 7 None None None "pro" (Some 1000%Z) None
              (Some true) (Some false) (Some 0%Z) (Some 1000%Z))
           2592001000 2592001000);
    try reflexivity; try lia; try compute_done.
Defined.

(** Across a clock change the day added is a calendar day: where the
    clocks go forward an hour at noon of 11 January 1970, a key created at
    midnight for one day expires 23 hours later, and a validation half an
    hour after that answers 410. *)
Example created_key_across_clock_change :
  let M := clocks_forward (10 * msPerDay + 43200000) in
  let now := (10 * msPerDay)%Z in
  let b := mkCreateBody (JNum 7) JUndefined JUndefined JUndefined
             (JStr "pro") (JStr "K1") (JNum 1) in
  let s := store_of (post_subscriptions M b now []) in
  status (result (post_subscriptions M b now [])) = 201 ∧
  expiresAt <$> s = [Some (now + 23 * 3600000)%Z] ∧
  status (result (connect "K1" (now + 23 * 3600000) s)) = 200 ∧
  status (result (connect "K1" (now + 23 * 3600000 + 1800000) s)) = 410.
Proof. split_and!; reflexivity. Qed.

(** X4. A create request with its required fields and a positive integer
    [durationDays] that takes the date past the range of [Date] is answered
    500, and nothing is created. *)
Theorem create_date_out_of_range M b now s n :
  truthy (req_userId b) = true →
  truthy (req_subscriptionType b) = true →
  truthy (req_key b) = true →
  req_durationDays b = JNum n → (0 < n)%Z →
  (maxTime < UTC M (LocalTime M now + n * msPerDay))%Z →
  post_subscriptions M b now s = (internal_error, s, []).
Proof.
  intros Hu Ht Hk Hn Hpos Hbig.
  rewrite ApiFacts.post_subscriptions_unfold, Hu, Ht, Hk, Hn.
  cbn [negb orb].
  assert (Hex : expiry_of M (JNum n) now = None).
  { rewrite ApiFacts.expiry_of_integer.
    assert (E1 : (0 <? n)%Z = true) by (apply Z.ltb_lt; lia).
    rewrite E1. unfold TimeClip. rewrite decide_False by lia. done. }
  rewrite Hex.
  replace (new_Subscription M b None now) with (@None Subscription); [done|].
  unfold new_Subscription.
  destruct (required_string (cast (castString M) (req_key b))); [|done].
  destruct (required (cast (castNumber M) (req_userId b))); [|done].
  destruct (cast (castString M) (req_username b)); [|done].
  destruct (cast (castString M) (req_firstName b)); [|done].
  destruct (cast (castString M) (req_lastName b)); [|done].
  destruct (required_string (cast (castString M) (req_subscriptionType b))); done.
Qed.

(** [create_date_out_of_range] for a duration of a billion days. *)
Lemma create_date_out_of_range_witness :
  post_subscriptions typed
    (mkCreateBody (JNum 7) JUndefined JUndefined JUndefined
       (JStr "pro") (JStr "K1") (JNum 1000000000)) 1000 [] =
  (internal_error, [], []).
Proof.
  apply (create_date_out_of_range typed
           (mkCreateBody (JNum 7) JUndefined JUndefined JUndefined
              (JStr "pro") (JStr "K1") (JNum 1000000000)) 1000 [] 1000000000);
    [reflexivity..|lia|reflexivity].
Defined.

(** X5. A create request does one of two things: it appends one document,
    active, created and last checked [now], with a key no document had, and
    answers 201 with it; or it answers 400, 409 or 500, writes nothing and
    leaves the collection as it is. *)
Theorem create_appends_or_nothing M b now s :
  (∃ d, post_subscriptions M b now s =
          (mkResponse 201 (MessageData true "Subscription key created successfully" d),
           s ++ [d], [Inserted d]) ∧
        (key d ∉ key <$> s) ∧ isActive d = Some true ∧
        createdAt d = Some now ∧ lastChecked d = Some now ∧
        isFrozen d = Some false ∧ frozenDays d = Some 0%Z) ∨
  (status (result (post_subscriptions M b now s)) ∈ [400; 409; 500] ∧
   store_of (post_subscriptions M b now s) = s ∧
   writes (post_subscriptions M b now s) = []).
Proof.
  rewrite ApiFacts.post_subscriptions_unfold.
  destruct (_ || _).
  { right. split_and!; [|done..]. simpl. constructor. }
  destruct (new_Subscription _ _ _ _) as [d|] eqn:Hnew.
  - case_decide as Hin.
    + right. split_and!; [|done..]. simpl. do 1 constructor. constructor.
    + left. exists d. split; [done|]. split; [done|].
      unfold new_Subscription in Hnew.
      destruct (required_string (cast (castString M) (req_key b))); [|done].
      destruct (required (cast (castNumber M) (req_userId b))); [|done].
      destruct (cast (castString M) (req_username b)); [|done].
      destruct (cast (castString M) (req_firstName b)); [|done].
      destruct (cast (castString M) (req_lastName b)); [|done].
      destruct (required_string (cast (castString M) (req_subscriptionType b))); [|done].
      destruct (expiry_of _ _); [|done].
      simpl in Hnew. inversion Hnew. done.
  - right. split_and!; [|done..]. simpl. do 2 constructor. constructor.
Qed.

(** ** Delete *)

Lemma delete_subscription_unfold k s :
  delete_subscription k s =
  match list_find (λ d, key d = k) s with
  | None => (mkResponse 404 (Message false "Subscription key not found"), s, [])
  | Some (i, _) =>
      (mkResponse 200 (Message true "Subscription key deleted successfully"),
       delete i s, [Deleted i])
  end.
Proof.
  unfold delete_subscription, mbind, DB_bind, findOneAndDelete.
  destruct (list_find _ s) as [[i d]|]; reflexivity.
Qed.

Lemma find_key s i d :
  unique_keys s → s !! i = Some d →
  list_find (λ x, key x = key d) s = Some (i, d).
Proof.
  intros Hu Hi. apply list_find_Some. split_and!; [done..|].
  intros j y Hj Hlt Hk. assert (j = i); [|lia].
  apply (NoDup_lookup (key <$> s) j i (key d)); [done|..];
    rewrite list_lookup_fmap; [rewrite Hj|rewrite Hi]; simpl; congruence.
Qed.

Lemma key_not_in_rest s i d :
  unique_keys s → s !! i = Some d → key d ∉ key <$> delete i s.
Proof.
  unfold unique_keys. intros Hu Hi.
  rewrite <- (take_drop_middle s i d Hi) in Hu.
  rewrite fmap_app, fmap_cons, <- Permutation_middle in Hu.
  apply NoDup_cons in Hu as [Hnot _].
  by rewrite delete_take_drop, fmap_app.
Qed.

(** X6. On a collection with unique keys, the delete of a key that a
    document holds answers 200 and takes out that document and no other;
    no document has the key afterwards, and a validation of it answers
    404. *)
Theorem delete_removes_record s i d :
  unique_keys s → s !! i = Some d →
  delete_subscription (key d) s =
    (mkResponse 200 (Message true "Subscription key deleted successfully"),
     delete i s, [Deleted i]) ∧
  (key d ∉ key <$> delete i s) ∧
  ∀ now, status (result (connect (key d) now (delete i s))) = 404.
Proof.
  intros Hu Hi.
  pose proof (key_not_in_rest s i d Hu Hi) as Hnot.
  split_and!; [|done|].
  - by rewrite delete_subscription_unfold, (find_key s i d Hu Hi).
  - intros now. rewrite ApiFacts.connect_unfold.
    replace (list_find _ (delete i s)) with (@None (nat * Subscription)); [done|].
    symmetry. apply list_find_None, Forall_forall. intros x Hx [Hk _].
    apply Hnot. rewrite <- Hk. by apply list_elem_of_fmap_2.
Qed.

(** [delete_removes_record] for the first of two keys. *)
Lemma delete_removes_record_witness :
  let d1 := mkSubscription "K1" 7 None None None "pro" (Some 0%Z) None
              (Some true) (Some false) (Some 0%Z) (Some 0%Z) in
  let d2 := mkSubscription "K2" 8 None None None "pro" (Some 0%Z) None
              (Some true) (Some false) (Some 0%Z) (Some 0%Z) in
  delete_subscription "K1" [d1; d2] =
    (mkResponse 200 (Message true "Subscription key deleted successfully"),
     [d2], [Deleted 0]) ∧
  ("K1" ∉ key <$> [d2]) ∧
  ∀ now, status (result (connect "K1" now [d2])) = 404.
Proof.
  intros d1 d2. apply (delete_removes_record [d1; d2] 0 d1).
  - unfold unique_keys. simpl. compute_done.
  - reflexivity.
Defined.

(** X7. The delete of a key that no document holds answers 404 and leaves
    the collection as it is. *)
Theorem delete_unknown_key k s :
  k ∉ key <$> s →
  delete_subscription k s =
    (mkResponse 404 (Message false "Subscription key not found"), s, []).
Proof.
  intros Hnot. rewrite delete_subscription_unfold.
  replace (list_find _ s) with (@None (nat * Subscription)); [done|].
  symmetry. apply list_find_None, Forall_forall. intros x Hx Hk.
  apply Hnot. rewrite <- Hk. by apply list_elem_of_fmap_2.
Qed.

(** [delete_unknown_key] for the key ["ghost"] on a collection of two
    other keys. *)
Lemma delete_unknown_key_witness :
  let d1 := mkSubscription "K1" 7 None None None "pro" (Some 0%Z) None
              (Some true) (Some false) (Some 0%Z) (Some 0%Z) in
  let d2 := mkSubscription "K2" 8 None None None "pro" (Some 0%Z) (Some 100%Z)
              (Some false) (Some false) (Some 0%Z) (Some 0%Z) in
  delete_subscription "ghost" [d1; d2] =
    (mkResponse 404 (Message false "Subscription key not found"), [d1; d2], []).
Proof.
  intros d1 d2. apply (delete_unknown_key "ghost" [d1; d2]). compute_done.
Defined.

(** X8. Create and delete undo each other: after a create answered 201,
    the delete of the new key answers 200 and the collection is the one
    before the create. *)
Theorem create_then_delete M b now s :
  status (result (post_subscriptions M b now s)) = 201 →
  ∃ d, store_of (post_subscriptions M b now s) = s ++ [d] ∧
       delete_subscription (key d) (s ++ [d]) =
         (mkResponse 200 (Message true "Subscription key deleted successfully"),
          s, [Deleted (length s)]).
Proof.
  rewrite ApiFacts.post_subscriptions_unfold.
  destruct (_ || _); [done|].
  destruct (new_Subscription _ _ _ _) as [d|] eqn:Hnew; [|done].
  case_decide as Hin; [done|]. intros _.
  exists d. split; [done|].
  rewrite delete_subscription_unfold.
  rewrite (find_appended (λ x, key x = key d) s d).
  - rewrite delete_take_drop, take_app_length.
    rewrite drop_app_ge by lia.
    replace (S (length s) - length s) with 1 by lia. simpl.
    by rewrite app_nil_r.
  - intros x Hx Hk. apply Hin. rewrite <- Hk. by apply list_elem_of_fmap_2.
  - done.
Qed.

(** [create_then_delete] on a collection that holds another key. *)
Lemma create_then_delete_witness :
  let d0 := mkSubscription "K0" 1 None None None "pro" (Some 0%Z) None
              (Some true) (Some false) (Some 0%Z) (Some 0%Z) in
  let b := mkCreateBody (JNum 7) JUndefined JUndefined JUndefined
             (JStr "pro") (JStr "K1") JUndefined in
  ∃ d, store_of (post_subscriptions typed b 1000 [d0]) = [d0] ++ [d] ∧
       delete_subscription (key d) ([d0] ++ [d]) =
         (mkResponse 200 (Message true "Subscription key deleted successfully"),
          [d0], [Deleted (length [d0])]).
Proof.
  intros d0 b. apply (create_then_delete typed b 1000 [d0]). reflexivity.
Defined.

(** ** Update *)

Lemma apply_updates_unknown M updates d :
  (∀ f, f ∈ updates.*1 → f ∉ schema_paths ++ Object_prototype) →
  apply_updates M updates d = Some d.
Proof.
  induction updates as [|[field v] rest IH]; intros H; simpl; [done|].
  rewrite decide_False.
  - apply IH. intros f Hf. apply H. simpl. by right.
  - apply H. simpl. by left.
Qed.

(** X9. An update whose field names are all unknown to the schema is
    answered 200 with the document as it was, and the collection is as it
    was. *)
Theorem put_unknown_fields_ignored M k updates s i d :
  unique_keys s →
  list_find (λ x, key x = k) s = Some (i, d) →
  (∀ f, f ∈ updates.*1 → f ∉ schema_paths ++ Object_prototype) →
  result (put_subscription M k updates s) =
    mkResponse 200 (MessageData true "Subscription updated successfully" d) ∧
  store_of (put_subscription M k updates s) = s.
Proof.
  intros Hu Hfind Hunknown.
  rewrite ApiFacts.put_subscription_unfold, Hfind,
    (apply_updates_unknown M updates d Hunknown).
  apply list_find_Some in Hfind as (Hi & _ & _).
  rewrite decide_False by (by apply key_not_in_rest).
  unfold result, store_of. simpl. split; [done|]. by apply list_insert_id.
Qed.

(** [put_unknown_fields_ignored] for an update of [plan] and [note]. *)
Lemma put_unknown_fields_ignored_witness :
  let d := mkSubscription "K1" 7 None None None "pro" (Some 0%Z) None
             (Some true) (Some false) (Some 0%Z) (Some 0%Z) in
  result (put_subscription typed "K1" [("plan", JStr "gold"); ("note", JNum 3)] [d]) =
    mkResponse 200 (MessageData true "Subscription updated successfully" d) ∧
  store_of (put_subscription typed "K1" [("plan", JStr "gold"); ("note", JNum 3)] [d])
    = [d].
Proof.
  intros d.
  apply (put_unknown_fields_ignored typed "K1"
           [("plan", JStr "gold"); ("note", JNum 3)] [d] 0 d).
  - unfold unique_keys. simpl. compute_done.
  - reflexivity.
  - intros f Hf. simpl in Hf.
    apply elem_of_cons in Hf as [->|Hf]; [compute_done|].
    apply list_elem_of_singleton in Hf as ->. compute_done.
Defined.

(** X10. An update writes exactly when it changes the collection. It
    makes at most one write, and none when it answers 404 or 500 or when
    the updated document is the stored one, as with an empty field map; a
    write is the updated document, stored at the place of the document
    found by key with an answer of 200. The length of the collection is as
    before. *)
Theorem put_writes_what_changes M k updates s :
  length (store_of (put_subscription M k updates s)) = length s ∧
  length (writes (put_subscription M k updates s)) ≤ 1 ∧
  (writes (put_subscription M k updates s) = [] ↔
   store_of (put_subscription M k updates s) = s) ∧
  (status (result (put_subscription M k updates s)) ≠ 200 →
   store_of (put_subscription M k updates s) = s) ∧
  (∀ w, w ∈ writes (put_subscription M k updates s) →
     ∃ i d d',
       w = Saved i d' ∧
       list_find (λ x, key x = k) s = Some (i, d) ∧
       apply_updates M updates d = Some d' ∧ d' ≠ d ∧
       store_of (put_subscription M k updates s) = <[i := d']> s ∧
       status (result (put_subscription M k updates s)) = 200).
Proof.
  rewrite ApiFacts.put_subscription_unfold.
  destruct (list_find _ s) as [[i d]|] eqn:Hfind;
    [|split_and!; try done; [simpl; lia|intros w Hw; by apply elem_of_nil in Hw]].
  pose proof Hfind as Hfind0.
  apply list_find_Some in Hfind as (Hi & _ & _).
  assert (Hlen : i < length s) by (by eapply lookup_lt_Some).
  destruct (apply_updates M updates d) as [d'|] eqn:Hup;
    [|split_and!; try done; [simpl; lia|intros w Hw; by apply elem_of_nil in Hw]].
  case_decide;
    [split_and!; try done; [simpl; lia|intros w Hw; by apply elem_of_nil in Hw]|].
  unfold result, store_of, writes. simpl.
  case_decide as Hsame.
  - subst d'. rewrite (list_insert_id s i d Hi).
    split_and!; try done; [simpl; lia|intros w Hw; by apply elem_of_nil in Hw].
  - split_and!; [apply length_insert|simpl; lia| |done|].
    + split; [done|]. intros Heq. exfalso. apply Hsame.
      assert (Hl : <[i := d']> s !! i = Some d') by (by apply list_lookup_insert_eq).
      rewrite Heq, Hi in Hl. by injection Hl.
    + intros w Hw. apply list_elem_of_singleton in Hw as ->.
      exists i, d, d'. split_and!; done.
Qed.

(** An update with an empty field map answers 200 and writes nothing; an
    update that freezes the key writes once. *)
Example put_empty_and_freeze :
  let d := mkSubscription "K1" 7 None None None "pro" (Some 0%Z) None
             (Some true) (Some false) (Some 0%Z) (Some 0%Z) in
  put_subscription typed "K1" [] [d] =
    (mkResponse 200 (MessageData true "Subscription updated successfully" d), [d], []) ∧
  writes (put_subscription typed "K1" [("isFrozen", JBool true)] [d]) =
    [Saved 0 (set_isFrozen (Some true) d)].
Proof. split; reflexivity. Qed.

(** X11. An update that would give a document the key of another one is
    answered 500, not 409, and changes nothing. *)
Theorem put_key_taken M k v s i d j other x :
  list_find (λ y, key y = k) s = Some (i, d) →
  required_string (cast (castString M) v) = Some x →
  s !! j = Some other → j ≠ i → key other = x →
  put_subscription M k [("key", v)] s = (internal_error, s, []).
Proof.
  intros Hfind Hcast Hj Hne Hx.
  rewrite ApiFacts.put_subscription_unfold, Hfind.
  assert (apply_updates M [("key", v)] d = Some (set_key x d)) as ->.
  { cbn. unfold assign. cbn. by rewrite Hcast. }
  rewrite decide_True; [done|]. simpl.
  apply list_elem_of_fmap. exists other. split; [done|].
  apply list_elem_of_lookup.
  destruct (decide (j < i)).
  - exists j. by rewrite list_lookup_delete_lt.
  - exists (j - 1). rewrite list_lookup_delete_ge by lia.
    replace (S (j - 1)) with j by lia. done.
Qed.

(** [put_key_taken] for the rename of ["K1"] to ["K2"] beside a document
    with the key ["K2"]. *)
Lemma put_key_taken_witness :
  let d1 := mkSubscription "K1" 7 None None None "pro" (Some 0%Z) None
              (Some true) (Some false) (Some 0%Z) (Some 0%Z) in
  let d2 := mkSubscription "K2" 8 None None None "pro" (Some 0%Z) None
              (Some true) (Some false) (Some 0%Z) (Some 0%Z) in
  put_subscription typed "K1" [("key", JStr "K2")] [d1; d2] =
    (internal_error, [d1; d2], []).
Proof.
  intros d1 d2.
  apply (put_key_taken typed "K1" (JStr "K2") [d1; d2] 0 d1 1 d2 "K2");
    [reflexivity..|lia|reflexivity].
Defined.

(** ** Expiration *)

Lemma post_cleanup_unfold now s :
  post_cleanup now s =
  (mkResponse 200
     (Message true ("Deactivated " +:+ pretty (length (filter (cleanup_filter now) s))
                    +:+ " expired subscriptions")),
   (λ d, if decide (cleanup_filter now d) then set_isActive (Some false) d else d) <$> s,
   [UpdatedMany (length (filter (cleanup_filter now) s))]).
Proof. reflexivity. Qed.

(** X12. After an on-demand cleanup at [now] no document is active with an
    [expiresAt] earlier than [now], and a further cleanup at [now] or at any
    earlier time reports 0 and changes nothing. *)
Theorem cleanup_settles now s :
  Forall (λ d, ¬ cleanup_filter now d) (store_of (post_cleanup now s)) ∧
  ∀ earlier, (earlier ≤ now)%Z →
    post_cleanup earlier (store_of (post_cleanup now s)) =
      (mkResponse 200 (Message true "Deactivated 0 expired subscriptions"),
       store_of (post_cleanup now s), [UpdatedMany 0]).
Proof.
  assert (Hall : Forall (λ d, ¬ cleanup_filter now d) (store_of (post_cleanup now s))).
  { rewrite post_cleanup_unfold. unfold store_of. simpl.
    apply Forall_fmap, Forall_forall. intros d _. simpl.
    case_decide as Hf; [|done]. intros [_ Ha]. done. }
  split; [done|]. intros earlier Hle.
  set (s' := store_of (post_cleanup now s)) in *.
  assert (Hnone : Forall (λ d, ¬ cleanup_filter earlier d) s').
  { eapply Forall_impl; [exact Hall|]. intros d Hd [Hlt Ha]. apply Hd.
    split; [|done]. unfold date_lt in *. destruct (expiresAt d); [lia|done]. }
  rewrite post_cleanup_unfold.
  assert (Hfilter : filter (cleanup_filter earlier) s' = []).
  { clear -Hnone. induction Hnone as [|d l Hd _ IH]; [done|].
    rewrite filter_cons_False by done. done. }
  rewrite Hfilter. simpl. f_equal. f_equal.
  clear -Hnone. induction Hnone as [|d l Hd _ IH]; [done|].
  rewrite fmap_cons, decide_False by done. by rewrite IH.
Qed.

(** X13. On a collection with unique keys a validation and a sweep tick at
    the same time commute: the collection they leave is the same in either
    order. *)
Theorem sweep_validation_commute k now s :
  unique_keys s →
  store_of (connect k now (store_of (sweep_tick now s))) =
  store_of (sweep_tick now (store_of (connect k now s))).
Proof.
  intros Hu. rewrite !ApiFacts.sweep_tick_store.
  set (g := λ d, if decide (cleanup_filter now d) then set_isActive (Some false) d else d).
  assert (Hkey : ∀ d, key (g d) = key d).
  { intros d. unfold g. by case_decide. }
  assert (Hu' : unique_keys (g <$> s)).
  { unfold unique_keys. rewrite <- list_fmap_compose.
    rewrite (list_fmap_ext (key ∘ g) key s); [done|].
    intros j d _. apply Hkey. }
  rewrite (ApiFacts.connect_unfold k now s).
  destruct (list_find _ s) as [[i d]|] eqn:Hfind.
  - apply list_find_Some in Hfind as (Hi & [Hk Ha] & _).
    assert (Hi' : (g <$> s) !! i = Some (g d)) by (by rewrite list_lookup_fmap, Hi).
    rewrite ApiFacts.connect_unfold. rewrite <- Hk, <- (Hkey d).
    rewrite (ApiFacts.find_by_key (λ x, isActive x = Some true) _ i (g d) Hu' Hi').
    pose proof (ApiFacts.expired_date_lt d now) as He.
    destruct (expired d now) eqn:Hex.
    + assert (Hf : cleanup_filter now d) by (split; [by apply He|done]).
      assert (Hg : g d = set_isActive (Some false) d)
        by (unfold g; by rewrite decide_True).
      rewrite Hg. rewrite decide_False by done.
      unfold store_of. simpl. rewrite list_fmap_insert.
      replace (g (set_isActive (Some false) d)) with (set_isActive (Some false) d).
      * symmetry. apply list_insert_id. by rewrite <- Hg.
      * unfold g. rewrite decide_False; [done|]. by intros [_ ?].
    + assert (Hf : ¬ cleanup_filter now d).
      { intros [Hlt _]. apply He in Hlt. done. }
      assert (Hg : g d = d) by (unfold g; by rewrite decide_False).
      rewrite Hg. rewrite decide_True by done. rewrite Hex.
      unfold store_of. simpl. rewrite list_fmap_insert. f_equal.
      unfold g. rewrite decide_False; [done|]. done.
  - unfold store_of at 2. simpl.
    rewrite ApiFacts.connect_unfold.
    replace (list_find _ (g <$> s)) with (@None (nat * Subscription)); [done|].
    symmetry. apply list_find_None, Forall_fmap, Forall_forall.
    intros d Hd. simpl. intros [Hk Ha].
    apply list_find_None in Hfind. rewrite Forall_forall in Hfind.
    apply (Hfind d Hd). rewrite Hkey in Hk. split; [done|].
    unfold g in Ha. case_decide as Hf; [done|done].
Qed.

(** [sweep_validation_commute] on an expired and a running key. *)
Lemma sweep_validation_commute_witness :
  let d1 := mkSubscription "K1" 7 None None None "pro" (Some 0%Z) (Some 100%Z)
              (Some true) (Some false) (Some 0%Z) (Some 0%Z) in
  let d2 := mkSubscription "K2" 8 None None None "pro" (Some 0%Z) (Some 900%Z)
              (Some true) (Some false) (Some 0%Z) (Some 0%Z) in
  store_of (connect "K2" 200 (store_of (sweep_tick 200 [d1; d2]))) =
  store_of (sweep_tick 200 (store_of (connect "K2" 200 [d1; d2]))).
Proof.
  intros d1 d2. apply (sweep_validation_commute "K2" 200 [d1; d2]).
  unfold unique_keys. simpl. compute_done.
Defined.

Lemma expire_inactive e s i d :
  s !! i = Some d → isActive d ≠ Some true → expire s e !! i = Some d.
Proof.
  intros Hi Ha. destruct e as [now|k now]; simpl.
  - rewrite ApiFacts.sweep_tick_store, list_lookup_fmap, Hi. simpl.
    rewrite decide_False; [done|]. by intros [_ ?].
  - rewrite ApiFacts.connect_unfold.
    destruct (list_find _ s) as [[j x]|] eqn:Hfind; [|done].
    apply list_find_Some in Hfind as (Hj & [_ Hx] & _).
    assert (j ≠ i) by (intros ->; congruence).
    destruct (expired x now); unfold store_of; simpl;
      by rewrite list_lookup_insert_ne.
Qed.

Lemma expire_all_inactive steps s i d :
  s !! i = Some d → isActive d ≠ Some true → expire_all steps s !! i = Some d.
Proof.
  revert s. induction steps as [|e steps IH]; intros s Hi Ha; simpl; [done|].
  apply IH; [|done]. by apply expire_inactive.
Qed.

(** X14. Expiration never switches a document on, nor touches one that is
    off: a document that is not active goes through any sequence of sweep
    ticks and validations unchanged in every field. *)
Theorem expiration_leaves_inactive_alone steps s i d :
  s !! i = Some d → isActive d ≠ Some true →
  expire_all steps s !! i = Some d.
Proof. apply expire_all_inactive. Qed.

(** [expiration_leaves_inactive_alone] for an inactive expired key. *)
Lemma expiration_leaves_inactive_alone_witness :
  let d := mkSubscription "K1" 7 None None None "pro" (Some 0%Z) (Some 100%Z)
             (Some false) (Some false) (Some 0%Z) (Some 0%Z) in
  expire_all [Validation "K1" 200; SweepTick 300; Validation "K1" 400] [d] !! 0
  = Some d.
Proof.
  intros d.
  apply (expiration_leaves_inactive_alone
           [Validation "K1" 200; SweepTick 300; Validation "K1" 400] [d] 0 d).
  - reflexivity.
  - discriminate.
Defined.

(** X15. On a collection with unique keys, once a validation of a key has
    answered 410, every later validation of that key answers 404, whatever
    sweep ticks and validations come in between. *)
Theorem expired_key_stays_rejected k now s steps later :
  unique_keys s →
  status (result (connect k now s)) = 410 →
  status (result (connect k later (expire_all steps (store_of (connect k now s)))))
  = 404.
Proof.
  intros Hu H410.
  assert (Hu1 : unique_keys (store_of (connect k now s)))
    by (unfold unique_keys; by rewrite ApiFacts.connect_keys).
  assert (Hu2 : unique_keys (expire_all steps (store_of (connect k now s))))
    by (unfold unique_keys; by rewrite ApiFacts.expire_all_keys).
  revert H410 Hu2. rewrite (ApiFacts.connect_unfold k now s).
  destruct (list_find _ s) as [[i d]|] eqn:Hfind; [|done].
  apply list_find_Some in Hfind as (Hi & [Hk Ha] & _).
  destruct (expired d now); [|done]. unfold store_of at 1 2. simpl.
  intros _ Hu2.
  assert (Hlen : i < length s) by (by eapply lookup_lt_Some).
  assert (Hoff : expire_all steps (<[i := set_isActive (Some false) d]> s) !! i
                 = Some (set_isActive (Some false) d)).
  { apply expire_all_inactive; [by apply list_lookup_insert_eq|done]. }
  rewrite ApiFacts.connect_unfold.
  replace k with (key (set_isActive (Some false) d)) by done.
  rewrite (ApiFacts.find_by_key (λ x, isActive x = Some true) _ i _ Hu2 Hoff).
  by rewrite decide_False.
Qed.

(** [expired_key_stays_rejected] for a key expired at 100. *)
Lemma expired_key_stays_rejected_witness :
  let d := mkSubscription "K1" 7 None None None "pro" (Some 0%Z) (Some 100%Z)
             (Some true) (Some false) (Some 0%Z) (Some 0%Z) in
  status (result (connect "K1" 900
    (expire_all [SweepTick 300; Validation "K1" 400] (store_of (connect "K1" 200 [d])))))
  = 404.
Proof.
  intros d.
  apply (expired_key_stays_rejected "K1" 200 [d]
           [SweepTick 300; Validation "K1" 400] 900).
  - unfold unique_keys. simpl. compute_done.
  - reflexivity.
Defined.

(** ** What holds in every collection the server reaches *)

Lemma required_string_nonempty r x : required_string r = Some x → x ≠ "".
Proof.
  unfold required_string. destruct r as [[y|]|]; [|done..].
  destruct (String.eqb y "") eqn:E; [done|].
  intros [= <-]. by apply String.eqb_neq.
Qed.

Lemma assign_named M field v d d' :
  assign M field v d = Some d' →
  key d ≠ "" ∧ subscriptionType d ≠ "" →
  key d' ≠ "" ∧ subscriptionType d' ≠ "".
Proof.
  intros H [Hk Ht]. unfold assign in H.
  repeat match type of H with
  | (if String.eqb ?f ?p then _ else _) = Some _ => destruct (String.eqb f p)
  end;
  try match type of H with
  | (?c ≫= _) = Some _ =>
      destruct c eqn:E; simpl in H; [|done]; inversion H; subst; simpl;
      split; try done; by eapply required_string_nonempty
  end.
  destruct (acceptsOther M field v); [|done]. injection H as <-. by split.
Qed.

Lemma apply_updates_named M updates d d' :
  apply_updates M updates d = Some d' →
  key d ≠ "" ∧ subscriptionType d ≠ "" →
  key d' ≠ "" ∧ subscriptionType d' ≠ "".
Proof.
  revert d. induction updates as [|[field v] rest IH]; intros d H Hd; simpl in H.
  - injection H as <-. done.
  - case_decide.
    + destruct (assign M field v d) as [d1|] eqn:Ha; [|done]. simpl in H.
      apply (IH d1 H). by apply (assign_named M field v d).
    + by apply (IH d).
Qed.

(** X16. In every collection the server reaches from the empty one, by
    whatever requests, no two documents have the same key, and every
    document has a non-empty [key] and a non-empty [subscriptionType]. *)
Theorem reachable_keys_unique_and_named M s :
  reachable M s →
  unique_keys s ∧ Forall (λ d, key d ≠ "" ∧ subscriptionType d ≠ "") s.
Proof.
  intros Hr. split; [by eapply ApiFacts.reachable_unique_keys|].
  induction Hr as [|s r now _ IH]; [done|].
  destruct r as [k|b|k updates|k| |]; simpl.
  - rewrite ApiFacts.connect_unfold.
    destruct (list_find _ s) as [[i d]|] eqn:Hfind; [|done].
    apply list_find_Some in Hfind as (Hi & _ & _).
    pose proof (Forall_lookup_1 _ _ _ _ IH Hi) as Hd.
    destruct (expired d now); unfold store_of; simpl; by apply Forall_insert.
  - rewrite ApiFacts.post_subscriptions_unfold.
    destruct (_ || _); [done|].
    destruct (new_Subscription _ _ _ _) as [d|] eqn:Hnew; [|done].
    case_decide; [done|]. unfold store_of; simpl.
    apply Forall_app. split; [done|]. apply Forall_singleton.
    unfold new_Subscription in Hnew.
    destruct (required_string (cast (castString M) (req_key b))) eqn:Ek; [|done].
    destruct (required (cast (castNumber M) (req_userId b))); [|done].
    destruct (cast (castString M) (req_username b)); [|done].
    destruct (cast (castString M) (req_firstName b)); [|done].
    destruct (cast (castString M) (req_lastName b)); [|done].
    destruct (required_string (cast (castString M) (req_subscriptionType b))) eqn:Et;
      [|done].
    destruct (expiry_of _ _); [|done].
    simpl in Hnew. inversion Hnew. simpl.
    split; by eapply required_string_nonempty.
  - rewrite ApiFacts.put_subscription_unfold.
    destruct (list_find _ s) as [[i d]|] eqn:Hfind; [|done].
    apply list_find_Some in Hfind as (Hi & _ & _).
    pose proof (Forall_lookup_1 _ _ _ _ IH Hi) as Hd.
    destruct (apply_updates M updates d) as [d'|] eqn:Hup; [|done].
    case_decide; [done|]. unfold store_of; simpl.
    apply Forall_insert; [done|]. by apply (apply_updates_named M updates d).
  - rewrite ApiFacts.delete_subscription_store.
    destruct (list_find _ s) as [[i d]|]; [|done]. by apply Forall_delete.
  - rewrite ApiFacts.post_cleanup_store, ApiFacts.sweep_tick_store.
    apply Forall_fmap. eapply Forall_impl; [exact IH|].
    intros d Hd. simpl. by case_decide.
  - rewrite ApiFacts.sweep_tick_store.
    apply Forall_fmap. eapply Forall_impl; [exact IH|].
    intros d Hd. simpl. by case_decide.
Qed.

(** [reachable_keys_unique_and_named] after a create, a rename and a
    create of the old key. *)
Lemma reachable_keys_unique_and_named_witness :
  let b := mkCreateBody (JNum 7) JUndefined JUndefined JUndefined
             (JStr "pro") (JStr "K1") JUndefined in
  let s := handle typed (Create b) 30
             (handle typed (Update "K1" [("key", JStr "K2")]) 20
                (handle typed (Create b) 10 [])) in
  key <$> s = ["K2"; "K1"] ∧
  unique_keys s ∧ Forall (λ d, key d ≠ "" ∧ subscriptionType d ≠ "") s.
Proof.
  intros b s. split; [reflexivity|].
  apply (reachable_keys_unique_and_named typed s).
  repeat apply reachable_handle. apply reachable_empty.
Defined.

(** ** List *)

#[local] Instance newest_first_total : Total newest_first.
Proof.
  intros d1 d2. unfold newest_first, date_le.
  destruct (createdAt d1), (createdAt d2); simpl; try tauto. lia.
Qed.

#[local] Instance newest_first_trans : Transitive newest_first.
Proof.
  intros d1 d2 d3. unfold newest_first, date_le.
  destruct (createdAt d1), (createdAt d2), (createdAt d3); simpl; try tauto. lia.
Qed.







(** X18. Of the values of the parameter [isActive] only ["true"] asks for
    active documents: with any other value, the empty one included, every
    document listed has [isActive] [false]. *)
Theorem list_isActive_only_true parseInt q v s ok n data s' w :
  query_isActive q = Some v →
  get_subscriptions parseInt q s = (Listing ok n data, s', w) →
  Forall (λ d, isActive d = Some (String.eqb v "true")) data.
Proof.
  intros Hv. unfold get_subscriptions.
  destruct (build_filter parseInt q) as [f|] eqn:Hf; [|done].
  intros [= <- <- <- <- <-].
  assert (Ha : filter_isActive f = Some (String.eqb v "true")).
  { unfold build_filter in Hf. rewrite Hv in Hf.
    destruct (or_else (query_userId q) None) as [u|].
    - destruct (parseInt u); [|done]. by inversion Hf.
    - by inversion Hf. }
  apply Forall_forall. intros d Hd.
  rewrite merge_sort_Permutation in Hd.
  apply list_elem_of_filter in Hd as [(_ & Hm & _) _].
  by rewrite Ha in Hm.
Qed.

(** [list_isActive_only_true] for [?isActive=1]. *)
Lemma list_isActive_only_true_witness :
  let d1 := mkSubscription "K1" 7 None None None "pro" (Some 10%Z) None
              (Some true) (Some false) (Some 0%Z) (Some 0%Z) in
  let d2 := mkSubscription "K2" 8 None None None "pro" (Some 20%Z) None
              (Some false) (Some false) (Some 0%Z) (Some 0%Z) in
  Forall (λ d, isActive d = Some (String.eqb "1" "true")) [d2].
Proof.
  intros d1 d2.
  apply (list_isActive_only_true (λ _, None) (mkListQuery None (Some "1") None) "1"
           [d1; d2] true 1 [d2] [d1; d2] []); reflexivity.
Defined.

(** ** Validation and update together *)

(** X25. A validation that answers 200 returns the document as it has just
    stored it: the document found, with [lastChecked] set to [now] and every
    other field as before, at its place; every other place of the collection
    is as before. *)
Theorem connect_returns_what_it_stores k now s :
  status (result (connect k now s)) = 200 →
  ∃ i d,
    s !! i = Some d ∧ key d = k ∧ isActive d = Some true ∧
    json (result (connect k now s)) = Data true (set_lastChecked (Some now) d) ∧
    store_of (connect k now s) !! i = Some (set_lastChecked (Some now) d) ∧
    ∀ j, j ≠ i → store_of (connect k now s) !! j = s !! j.
Proof.
  rewrite ApiFacts.connect_unfold.
  destruct (list_find _ s) as [[i d]|] eqn:Hfind; [|done].
  apply list_find_Some in Hfind as (Hi & [Hk Ha] & _).
  destruct (expired d now); [done|]. intros _.
  exists i, d. unfold result, store_of. simpl. split_and!; [done..| |].
  - apply list_lookup_insert_eq. by eapply lookup_lt_Some.
  - intros j Hj. by apply list_lookup_insert_ne.
Qed.

(** [connect_returns_what_it_stores] for a permanent key. *)
Lemma connect_returns_what_it_stores_witness :
  let d := mkSubscription "K1" 7 None None None "pro" (Some 0%Z) None
             (Some true) (Some false) (Some 0%Z) (Some 0%Z) in
  ∃ i x,
    [d] !! i = Some x ∧ key x = "K1" ∧ isActive x = Some true ∧
    json (result (connect "K1" 5 [d])) = Data true (set_lastChecked (Some 5%Z) x) ∧
    store_of (connect "K1" 5 [d]) !! i = Some (set_lastChecked (Some 5%Z) x) ∧
    ∀ j, j ≠ i → store_of (connect "K1" 5 [d]) !! j = [d] !! j.
Proof.
  intros d. apply (connect_returns_what_it_stores "K1" 5 [d]). reflexivity.
Defined.

Lemma put_two_fields M k s i d d' updates :
  unique_keys s →
  list_find (λ x, key x = k) s = Some (i, d) →
  apply_updates M updates d = Some d' → key d' = key d →
  store_of (put_subscription M k updates s) = <[i := d']> s ∧
  unique_keys (<[i := d']> s) ∧ <[i := d']> s !! i = Some d' ∧ key d' = k.
Proof.
  intros Hu Hfind Hup Hkey.
  rewrite ApiFacts.put_subscription_unfold, Hfind, Hup.
  apply list_find_Some in Hfind as (Hi & Hk & _).
  rewrite decide_False by (rewrite Hkey; by apply key_not_in_rest).
  unfold store_of. simpl. split_and!; [done| | |congruence].
  - unfold unique_keys. rewrite list_fmap_insert, Hkey.
    rewrite list_insert_id; [done|]. by rewrite list_lookup_fmap, Hi.
  - apply list_lookup_insert_eq. by eapply lookup_lt_Some.
Qed.

(** X26. A key can be extended: after an update that sets [expiresAt] to a
    date not earlier than [now] and [isActive] to [true], a validation at
    [now] answers 200, whatever the document's [expiresAt] and [isActive]
    were. *)
Theorem extended_key_validates M k v a e now s i d :
  unique_keys s →
  list_find (λ x, key x = k) s = Some (i, d) →
  cast (castDate M) v = Some (Some e) →
  cast (castBoolean M) a = Some (Some true) →
  (now ≤ e)%Z →
  status (result (connect k now
    (store_of (put_subscription M k [("expiresAt", v); ("isActive", a)] s)))) = 200.
Proof.
  intros Hu Hfind Hv Ha Hle.
  set (d' := set_isActive (Some true) (set_expiresAt (Some e) d)).
  assert (Hup : apply_updates M [("expiresAt", v); ("isActive", a)] d = Some d').
  { cbn. unfold assign. cbn. rewrite Hv. cbn. by rewrite Ha. }
  destruct (put_two_fields M k s i d d' _ Hu Hfind Hup eq_refl)
    as (-> & Hu' & Hi' & Hk').
  rewrite ApiFacts.connect_unfold. rewrite <- Hk'.
  rewrite (ApiFacts.find_by_key (λ x, isActive x = Some true) _ i d' Hu' Hi').
  rewrite decide_True by done.
  assert (Hex : expired d' now = false).
  { unfold expired. simpl. apply Z.ltb_ge. lia. }
  by rewrite Hex.
Qed.

(** [extended_key_validates] for a key expired at 100 and inactive,
    extended to 5000 and validated at 200. *)
Lemma extended_key_validates_witness :
  let d := mkSubscription "K1" 7 None None None "pro" (Some 0%Z) (Some 100%Z)
             (Some false) (Some false) (Some 0%Z) (Some 0%Z) in
  status (result (connect "K1" 200
    (store_of (put_subscription typed "K1"
                 [("expiresAt", JNum 5000); ("isActive", JBool true)] [d])))) = 200.
Proof.
  intros d.
  apply (extended_key_validates typed "K1" (JNum 5000) (JBool true) 5000 200 [d] 0 d).
  - unfold unique_keys. simpl. compute_done.
  - reflexivity.
  - reflexivity.
  - reflexivity.
  - lia.
Defined.

(** X27. The freeze flag is not read by validation: after an update of
    [isFrozen] alone, to whatever value, a validation of the key answers as
    it would have without the update. *)
Theorem freeze_does_not_affect_validation M k v fz now s i d :
  unique_keys s →
  list_find (λ x, key x = k) s = Some (i, d) →
  cast (castBoolean M) v = Some fz →
  status (result (connect k now
    (store_of (put_subscription M k [("isFrozen", v)] s)))) =
  status (result (connect k now s)).
Proof.
  intros Hu Hfind Hv.
  set (d' := set_isFrozen fz d).
  assert (Hup : apply_updates M [("isFrozen", v)] d = Some d').
  { cbn. unfold assign. cbn. by rewrite Hv. }
  destruct (put_two_fields M k s i d d' _ Hu Hfind Hup eq_refl)
    as (-> & Hu' & Hi' & Hk').
  apply list_find_Some in Hfind as (Hi & Hk & _). subst k.
  assert (F1 : list_find (λ x, key x = key d ∧ isActive x = Some true) (<[i := d']> s)
               = if decide (isActive d = Some true) then Some (i, d') else None)
    by exact (ApiFacts.find_by_key (λ x, isActive x = Some true) _ i d' Hu' Hi').
  rewrite !ApiFacts.connect_unfold, F1.
  rewrite (ApiFacts.find_by_key (λ x, isActive x = Some true) _ i d Hu Hi).
  case_decide; [|done].
  replace (expired d' now) with (expired d now) by done.
  by destruct (expired d now).
Qed.

(** [freeze_does_not_affect_validation] for a running key that is
    frozen. *)
Lemma freeze_does_not_affect_validation_witness :
  let d := mkSubscription "K1" 7 None None None "pro" (Some 0%Z) (Some 900%Z)
             (Some true) (Some false) (Some 0%Z) (Some 0%Z) in
  status (result (connect "K1" 200
    (store_of (put_subscription typed "K1" [("isFrozen", JBool true)] [d])))) =
  status (result (connect "K1" 200 [d])).
Proof.
  intros d.
  apply (freeze_does_not_affect_validation typed "K1" (JBool true) (Some true)
           200 [d] 0 d).
  - unfold unique_keys. simpl. compute_done.
  - reflexivity.
  - reflexivity.
Defined.

End ApiMore.

(** * Further properties of the admin console *)

Module AdminMore.
Import Admin.

(** ** Toggle and delete *)

(** X19. Two toggles of the same id in a row leave the collection as it
    was, whether or not a key has that id. *)
Theorem toggle_twice id keys : (toggle id (toggle id keys).2).2 = keys.
Proof.
  unfold toggle at 2.
  destruct (findById id keys) as [[i k]|] eqn:Hfind; simpl.
  - pose proof Hfind as Hfind0.
    apply list_find_Some in Hfind as (Hi & Hid & Hmin).
    assert (Hlen : i < length keys) by (by eapply lookup_lt_Some).
    assert (Hfind' : findById id (<[i := set_isActive (negb (isActive k)) k]> keys)
                     = Some (i, set_isActive (negb (isActive k)) k)).
    { apply list_find_Some. split_and!.
      - by apply list_lookup_insert_eq.
      - done.
      - intros j y Hj Hlt. rewrite list_lookup_insert_ne in Hj by lia.
        by apply (Hmin j y). }
    unfold toggle. rewrite Hfind'. simpl.
    rewrite list_insert_insert_eq, negb_involutive.
    replace (set_isActive (isActive k) (set_isActive (negb (isActive k)) k)) with k
      by (by destruct k).
    by apply list_insert_id.
  - unfold toggle. by rewrite Hfind.
Qed.

(** X20. The delete of a key by an identifier reports success whether or
    not a key has it: if none has, the collection is as it was; if one has,
    the collection is one key shorter. An id that is not the text of an
    identifier is answered 500, and the collection is as it was. *)
Theorem delete_key_success_without_match id keys :
  (delete_key (Some id) keys).1 = Json 200 true "Ключ удален" None ∧
  (id ∉ _id <$> keys → (delete_key (Some id) keys).2 = keys) ∧
  (id ∈ _id <$> keys → S (length (delete_key (Some id) keys).2) = length keys) ∧
  delete_key None keys = (Json 500 false "Ошибка удаления ключа" None, keys).
Proof.
  unfold delete_key.
  destruct (findById id keys) as [[i k]|] eqn:Hfind; simpl.
  - apply list_find_Some in Hfind as (Hi & Hid & _).
    split_and!; [done| | |done].
    + intros Hnot. destruct Hnot. rewrite <- Hid.
      apply list_elem_of_fmap_2. by eapply list_elem_of_lookup_2.
    + intros _. rewrite length_delete by eauto.
      assert (i < length keys) by (by eapply lookup_lt_Some). lia.
  - split_and!; [done..| |done].
    intros Hin. apply list_elem_of_fmap in Hin as (k & -> & Hk).
    apply list_find_None in Hfind. rewrite Forall_forall in Hfind.
    by destruct (Hfind k Hk).
Qed.

(** ** The hourly timer *)

(** X21. The timer's [deletedCount] and the keys it keeps add up to the
    keys there were, and after a tick at [now] a tick at [now] or at any
    earlier time deletes nothing. *)
Theorem sweep_counts_and_settles now keys :
  (sweep now keys).1 + length (sweep now keys).2 = length keys ∧
  ∀ earlier, (earlier ≤ now)%Z →
    sweep earlier (sweep now keys).2 = (0, (sweep now keys).2).
Proof.
  unfold sweep. simpl. split.
  - rewrite <- length_app. apply Permutation_length, filter_app_complement.
  - intros earlier Hle.
    assert (Hnone : Forall (λ k, ¬ sweep_filter earlier k)
                      (filter (λ k, ¬ sweep_filter now k) keys)).
    { apply Forall_forall. intros k Hk.
      apply list_elem_of_filter in Hk as [Hk _]. intros [Hp Hlt]. apply Hk.
      split; [done|]. unfold date_lt in *. destruct (expiresAt k); [lia|done]. }
    revert Hnone. generalize (filter (λ k, ¬ sweep_filter now k) keys).
    intros l Hnone. induction Hnone as [|k l Hk _ IH]; [done|].
    rewrite filter_cons_False by done.
    rewrite filter_cons_True by done.
    injection IH as IH1 IH2. by rewrite IH1, IH2.
Qed.

Lemma run_step_keeps keys e k :
  k ∈ keys → isPermanent k = true ∨ expiresAt k = None →
  ∃ k', k' ∈ run_step keys e ∧ set_isActive true k' = set_isActive true k.
Proof.
  intros Hin Himmune. destruct e as [now|id]; simpl.
  - exists k. split; [|done]. apply list_elem_of_filter. split; [|done].
    intros [Hp Hlt]. destruct Himmune as [Ht|He]; [congruence|].
    by rewrite He in Hlt.
  - unfold toggle. destruct (findById id keys) as [[i x]|] eqn:Hfind;
      simpl; [|by exists k].
    apply list_find_Some in Hfind as (Hi & _ & _).
    apply list_elem_of_lookup in Hin as [j Hj].
    destruct (decide (j = i)) as [->|Hne].
    + assert (x = k) as -> by congruence.
      exists (set_isActive (negb (isActive k)) k). split; [|done].
      apply list_elem_of_lookup. exists i. apply list_lookup_insert_eq.
      by eapply lookup_lt_Some.
    + exists k. split; [|done]. apply list_elem_of_lookup. exists j.
      by rewrite list_lookup_insert_ne.
Qed.

(** X22. A key that is permanent, or has no [expiresAt], is never removed
    by the timer: after any sequence of ticks and toggles it is still in
    the collection, with the fields it had except, after toggles,
    [isActive]. *)
Theorem permanent_key_survives steps keys k :
  k ∈ keys → isPermanent k = true ∨ expiresAt k = None →
  ∃ k', k' ∈ run steps keys ∧ set_isActive true k' = set_isActive true k.
Proof.
  revert keys k. induction steps as [|e steps IH]; intros keys k Hin Himmune; simpl.
  - by exists k.
  - destruct (run_step_keeps keys e k Hin Himmune) as (k1 & Hin1 & Hsame1).
    assert (Himmune1 : isPermanent k1 = true ∨ expiresAt k1 = None).
    { replace (isPermanent k1) with (isPermanent (set_isActive true k1)) by done.
      replace (expiresAt k1) with (expiresAt (set_isActive true k1)) by done.
      by rewrite Hsame1. }
    destruct (IH _ k1 Hin1 Himmune1) as (k2 & Hin2 & Hsame2).
    exists k2. split; [done|]. congruence.
Qed.

(** [permanent_key_survives] for a permanent key with a date in the
    past. *)
Lemma permanent_key_survives_witness :
  let k := mkKey 1 "6fa459ea" None "pro" 0 (Some 1000%Z) true true in
  ∃ k', k' ∈ run [Sweep 2000; Toggle 1; Sweep 3000] [k] ∧
        set_isActive true k' = set_isActive true k.
Proof.
  intros k. apply (permanent_key_survives [Sweep 2000; Toggle 1; Sweep 3000] [k] k).
  - by apply list_elem_of_singleton.
  - by left.
Defined.

(** ** Create *)

(** X23. A key the form creates is the last of the collection, active,
    with the generated identifier as its key, and flagged permanent only
    for the value ["on"] of [isPermanent]. A tick of the timer at [t] keeps
    it if [isPermanent] was any truthy value, or if its date is not earlier
    than [t], and removes it otherwise. *)
Theorem created_key_swept_iff M uuid oid now body keys keys' :
  post_keys M uuid oid now body keys =
    (Redirect "/?message=Ключ успешно создан", keys') →
  ∃ k, keys' = keys ++ [k] ∧ key k = uuid ∧ _id k = oid ∧ isActive k = true ∧
       isPermanent k = is_on (form_isPermanent body) ∧
       ∀ t, k ∈ (sweep t keys').2 ↔
            truthy (form_isPermanent body) = true ∨
            ¬ date_lt (form_expiresAt body) t.
Proof.
  unfold post_keys.
  destruct (truthy (form_isPermanent body)) eqn:Hp.
  - destruct (required_string _) as [ty|]; [|done].
    case_decide; [done|]. intros [= <-].
    eexists. split_and!; [done..|]. intros t.
    unfold sweep. simpl. rewrite list_elem_of_filter. split; [by left|].
    intros _. split.
    + intros [_ Hlt]. done.
    + apply elem_of_app. right. by apply list_elem_of_singleton.
  - destruct (form_expiresAt body) as [e|]; simpl; [|done].
    destruct (required_string _) as [ty|]; [|done].
    case_decide; [done|]. intros [= <-].
    assert (Hon : is_on (form_isPermanent body) = false).
    { destruct (form_isPermanent body) as [| | |?|? ?|x]; try done.
      simpl in *. destruct (String.eqb x "on") eqn:E; [|done].
      apply String.eqb_eq in E. by subst. }
    eexists. split_and!; [done..|]. intros t.
    unfold sweep. simpl. rewrite list_elem_of_filter. rewrite Hon. split.
    + intros [Hk _]. right. intros Hlt. apply Hk. by split.
    + intros [?|Hnot]; [done|]. split.
      * intros [_ Hlt]. done.
      * apply elem_of_app. right. by apply list_elem_of_singleton.
Qed.

(** [created_key_swept_iff] for a form with [isPermanent] ["yes"]: the key
    is kept although it is not flagged permanent. *)
Lemma created_key_swept_iff_witness :
  let body := mkKeyForm (JStr "pro") (Some 1000%Z) (JStr "yes") in
  ∃ k, [mkKey 1 "6fa459ea" None "pro" 0 None true false] = [] ++ [k] ∧
       key k = "6fa459ea" ∧ _id k = 1 ∧ isActive k = true ∧
       isPermanent k = is_on (form_isPermanent body) ∧
       ∀ t, k ∈ (sweep t [mkKey 1 "6fa459ea" None "pro" 0 None true false]).2 ↔
            truthy (form_isPermanent body) = true ∨
            ¬ date_lt (form_expiresAt body) t.
Proof.
  intros body.
  apply (created_key_swept_iff typed "6fa459ea" 1 0 body []). reflexivity.
Defined.

(** ** The index page *)

#[local] Instance newest_first_total : Total newest_first.
Proof. intros k1 k2. unfold newest_first. lia. Qed.

#[local] Instance newest_first_trans : Transitive newest_first.
Proof. intros k1 k2 k3. unfold newest_first. lia. Qed.

Lemma pages_concat {A} (l : list A) n :
  length l ≤ n * limit →
  concat ((λ p, take limit (drop (p * limit) l)) <$> seq 0 n) = l.
Proof.
  revert l. induction n as [|n IH]; intros l Hlen.
  - destruct l; [done|]. simpl in Hlen. lia.
  - rewrite <- cons_seq, <- fmap_S_seq, fmap_cons, <- list_fmap_compose.
    simpl concat. rewrite drop_0.
    etrans; [|apply (take_drop limit l)]. f_equal.
    etrans; [|apply (IH (drop limit l))].
    + f_equal. apply list_fmap_ext. intros i p _. simpl.
      by rewrite drop_drop.
    + rewrite length_drop. unfold limit in *. lia.
Qed.

Lemma total_pages_enough n : n ≤ total_pages n * limit.
Proof.
  unfold total_pages, limit.
  pose proof (Nat.div_mod_eq (n + (10 - 1)) 10) as H.
  pose proof (Nat.mod_upper_bound (n + (10 - 1)) 10) as H'.
  lia.
Qed.

(** X24. The pages of the console show the keys newest first, ten to a
    page: page [p + 1] is the next ten of the sorted keys after the first
    [10 * p], the pages from 1 to [totalPages] put end to end are all the
    keys, each once, and a page after [totalPages] is empty. *)
Theorem index_pages_partition keys :
  let sorted := merge_sort newest_first keys in
  sorted ≡ₚ keys ∧ StronglySorted newest_first sorted ∧
  (∀ p : nat,
     get_index (Some (Z.of_nat (S p))) keys =
       Index (take limit (drop (p * limit) sorted)) (Z.of_nat (S p))
             (total_pages (length keys))) ∧
  concat ((λ p, take limit (drop (p * limit) sorted))
            <$> seq 0 (total_pages (length keys))) = sorted ∧
  (∀ p, total_pages (length keys) ≤ p →
        take limit (drop (p * limit) sorted) = []).
Proof.
  intros sorted.
  assert (Hperm : sorted ≡ₚ keys) by apply merge_sort_Permutation.
  assert (Hlen : length sorted = length keys) by (by rewrite Hperm).
  split_and!; [done|apply StronglySorted_merge_sort; apply _|..].
  - intros p. unfold get_index, page_of.
    assert (E0 : (Z.of_nat (S p) =? 0)%Z = false) by (apply Z.eqb_neq; lia).
    rewrite E0.
    assert (E1 : ((Z.of_nat (S p) - 1) * Z.of_nat limit <? 0)%Z = false)
      by (apply Z.ltb_ge; lia).
    rewrite E1. do 3 f_equal. lia.
  - apply pages_concat. rewrite Hlen. apply total_pages_enough.
  - intros p Hp. rewrite drop_ge; [done|].
    rewrite Hlen. pose proof (total_pages_enough (length keys)).
    unfold limit in *. nia.
Qed.

(** Twelve keys make two pages, of ten and of two. *)
Example index_of_twelve :
  let keys := (λ n, mkKey n "k" None "pro" (Z.of_nat n) None true true) <$> seq 1 12 in
  get_index None keys =
    Index ((λ n, mkKey n "k" None "pro" (Z.of_nat n) None true true)
             <$> [12; 11; 10; 9; 8; 7; 6; 5; 4; 3]) 1 2 ∧
  get_index (Some 2%Z) keys =
    Index ((λ n, mkKey n "k" None "pro" (Z.of_nat n) None true true) <$> [2; 1]) 2 2.
Proof. split; reflexivity. Qed.

End AdminMore.
